(** * Tunnel lifecycle controller and DNS redirection of the IVPN daemon

  A shallow embedding of
  - [service/dns/dns_windows.go]  (tracked DNS value, [implSetManual],
    [implDeleteManual], [getMACAddrByIPinNetwork]) and
  - [vpn/wireguard/wireguard_linux.go] ([connect], [pause], [resume],
    [disconnect] and the capacity-one control channel),
  followed by the properties of the two components. *)

From Stdlib Require Import String ZArith List Bool Lia.
Import ListNotations.

Local Open Scope Z_scope.

(* ===================================================================== *)
(** * The part of Go's [net] package the DNS controller relies on        *)
(* ===================================================================== *)

Module Net.

(** A byte is a [Z] in [0, 256). *)
Definition byte := Z.

(** [net.IP] is a byte slice; [None] is the nil slice. *)
Definition IP := option (list byte).

(** [net.HardwareAddr] is a byte slice too. *)
Definition HardwareAddr := option (list byte).

Definition bytes (ip : option (list byte)) : list byte :=
  match ip with
  | None => []
  | Some l => l
  end.

Definition len (ip : option (list byte)) : nat := length (bytes ip).

Definition isNil (ip : option (list byte)) : bool :=
  match ip with
  | None => true
  | Some _ => false
  end.

Definition IPv4len : nat := 4.
Definition IPv6len : nat := 16.

Definition v4InV6Prefix : list byte := [0; 0; 0; 0; 0; 0; 0; 0; 0; 0; 255; 255].

(** [net.IPv4(a, b, c, d)]: the 16-byte form of an IPv4 address. *)
Definition IPv4 (a b c d : byte) : IP := Some (v4InV6Prefix ++ [a; b; c; d]).

Definition IPv4zero : IP := IPv4 0 0 0 0.

(** [bytealg.Equal] *)
Fixpoint bytesEqual (a b : list byte) : bool :=
  match a, b with
  | [], [] => true
  | x :: a', y :: b' => (x =? y) && bytesEqual a' b'
  | _, _ => false
  end.

(** [func (ip IP) Equal(x IP) bool] *)
Definition Equal (ip x : IP) : bool :=
  if Nat.eqb (len ip) (len x) then bytesEqual (bytes ip) (bytes x)
  else if Nat.eqb (len ip) IPv4len && Nat.eqb (len x) IPv6len then
    bytesEqual (firstn 12 (bytes x)) v4InV6Prefix
    && bytesEqual (bytes ip) (skipn 12 (bytes x))
  else if Nat.eqb (len ip) IPv6len && Nat.eqb (len x) IPv4len then
    bytesEqual (firstn 12 (bytes ip)) v4InV6Prefix
    && bytesEqual (skipn 12 (bytes ip)) (bytes x)
  else false.

Definition isZeros (p : list byte) : bool := forallb (fun b => b =? 0) p.

(** [func (ip IP) To4() IP] *)
Definition To4 (ip : IP) : IP :=
  if Nat.eqb (len ip) IPv4len then ip
  else if Nat.eqb (len ip) IPv6len
          && isZeros (firstn 10 (bytes ip))
          && (nth 10 (bytes ip) 0 =? 255)
          && (nth 11 (bytes ip) 0 =? 255)
  then Some (firstn 4 (skipn 12 (bytes ip)))
  else None.

(** [net.IPNet]: an address and its mask. *)
Record IPNet := { ipnIP : IP; ipnMask : list byte }.

(** [networkNumberAndMask]; [None] stands for the pair [(nil, nil)]. *)
Definition networkNumberAndMask (n : IPNet) : option (list byte * list byte) :=
  let ip4 := To4 (ipnIP n) in
  let ip := if isNil ip4 then ipnIP n else ip4 in
  if isNil ip4 && negb (Nat.eqb (len ip) IPv6len) then None
  else
    let m := ipnMask n in
    if Nat.eqb (length m) IPv4len then
      if Nat.eqb (len ip) IPv4len then Some (bytes ip, m) else None
    else if Nat.eqb (length m) IPv6len then
      if Nat.eqb (len ip) IPv4len then Some (bytes ip, skipn 12 m)
      else Some (bytes ip, m)
    else None.

(** The loop of [Contains]: every masked byte agrees.  The mask that
    [networkNumberAndMask] returns is as long as the network number, so
    the last case is never reached from [Contains]. *)
Fixpoint maskedEqual (nn m ip : list byte) : bool :=
  match nn, m, ip with
  | [], _, [] => true
  | a :: nn', k :: m', b :: ip' =>
      (Z.land a k =? Z.land b k) && maskedEqual nn' m' ip'
  | _, _, _ => false
  end.

(** [func (n *IPNet) Contains(ip IP) bool] *)
Definition Contains (n : IPNet) (ip : IP) : bool :=
  let x := To4 ip in
  let ip' := if isNil x then ip else x in
  match networkNumberAndMask n with
  | None => Nat.eqb (len ip') 0
  | Some (nn, m) =>
      if Nat.eqb (len ip') (length nn) then maskedEqual nn m (bytes ip')
      else false
  end.

(** [net.Interface], reduced to the field the resolver reads. *)
Record Interface := { ifHardwareAddr : HardwareAddr }.

End Net.

(* ===================================================================== *)
(** * service/dns/dns_windows.go                                          *)
(* ===================================================================== *)

Module Dns.
Import Net.

(** [type Operation uint32] and its three constants. *)
Inductive Operation := OperationSet | OperationAdd | OperationDel.

Definition Operation_code (op : Operation) : Z :=
  match op with
  | OperationSet => 0
  | OperationAdd => 1
  | OperationDel => 2
  end.

(** Go [error] values the package produces or passes on. *)
Inductive error :=
| Errno (code : Z)                      (* a non-zero [syscall.Errno] *)
| DNSChangeError (retval : Z)           (* "DNS change error: 0x%X" *)
| ErrorsNew (msg : string)              (* [errors.New] *)
| Errorf (msg : string) (cause : error) (* [fmt.Errorf(msg ": %w", cause)] *).

(** The value a recovered panic carries: an [error] or anything else,
    the latter rendered by [fmt.Sprint]. *)
Inductive PanicValue :=
| PanicError (e : error)
| PanicOther (rendered : string).

(** The DNS string handed to the helper: empty, or [dns.String()]. *)
Inductive DNSString :=
| EmptyDNS
| StringOf (dns : IP).

(** One call into the helper DLL, with the values its arguments render. *)
Inductive NativeCall :=
| SetDNSByMAC (interfaceMAC : HardwareAddr) (dnsIP : DNSString) (operation : Operation)
| SetDNSByLocalIP (interfaceLocalAddr : IP) (dnsIP : DNSString) (operation : Operation).

(** What [LazyProc.Call] does: return [(retval, _, errno)] or panic. *)
Inductive CallOutcome :=
| Returned (retval : Z) (errno : Z)
| Faulted (r : PanicValue).

(** The operating system as the package sees it during one call:
    [netinfo.GetAllLocalV4Addresses], [netinfo.InterfaceByIPAddr], and
    the helper DLL, whose answer may depend on the calls made so far. *)
Record Env := {
  GetAllLocalV4Addresses : list IPNet + error;
  InterfaceByIPAddr : IP -> option Interface + error;
  helper : list NativeCall -> NativeCall -> CallOutcome
}.

(** Package state: [_lastDNS], and the record of helper calls issued. *)
Record State := {
  _lastDNS : IP;
  calls : list NativeCall
}.

(** ** Control flow of a function body

    A statement continues with a value, returns from the enclosing
    function, or panics. *)
Inductive flow (A : Type) :=
| Continue (a : A)
| Return (err : option error)
| Panic (r : PanicValue).
Arguments Continue {A} a.
Arguments Return {A} err.
Arguments Panic {A} r.

Definition M (A : Type) : Type := State -> flow A * State.

Definition continue {A} (a : A) : M A := fun s => (Continue a, s).
Definition return_ {A} (err : option error) : M A := fun s => (Return err, s).

Definition bind {A B} (c : M A) (k : A -> M B) : M B :=
  fun s =>
    match c s with
    | (Continue a, s') => k a s'
    | (Return e, s') => (Return e, s')
    | (Panic r, s') => (Panic r, s')
    end.

Declare Scope go_scope.
Delimit Scope go_scope with go.
Notation "x <- c ;; k" := (bind c (fun x => k))
  (at level 100, c at next level, right associativity) : go_scope.
Notation "c ;; k" := (bind c (fun _ => k))
  (at level 100, right associativity) : go_scope.
Local Open Scope go_scope.

Definition getLastDNS : M IP := fun s => (Continue (_lastDNS s), s).

Definition setLastDNS (ip : IP) : M unit :=
  fun s => (Continue tt, {| _lastDNS := ip; calls := calls s |}).

(** [for _, x := range l { body x }] *)
Fixpoint range {A} (l : list A) (body : A -> M unit) : M unit :=
  match l with
  | [] => continue tt
  | x :: rest => body x ;; range rest body
  end.

(** [defer catchPanic(&err)] around a body with the named result [err]. *)
Definition catchPanic (body : M unit) (s : State) : option error * State :=
  match body s with
  | (Continue _, s') => (None, s')
  | (Return err, s') => (err, s')
  | (Panic (PanicError e), s') => (Some e, s')
  | (Panic (PanicOther r), s') => (Some (ErrorsNew r), s')
  end.

(** [checkDefaultAPIResp] *)
Definition checkDefaultAPIResp (retval errno : Z) : option error :=
  if negb (errno =? 0) then Some (Errno errno)
  else if negb (retval =? 0) then Some (DNSChangeError retval)
  else None.

Definition dnsStringOf (dns : IP) : DNSString :=
  if Equal dns IPv4zero then EmptyDNS else StringOf dns.

(** The call through the lazily loaded procedure, recorded in [calls]. *)
Definition Call (env : Env) (c : NativeCall) : M (option error) :=
  fun s =>
    let s' := {| _lastDNS := _lastDNS s; calls := calls s ++ [c] |} in
    match helper env (calls s) c with
    | Returned retval errno => (Continue (checkDefaultAPIResp retval errno), s')
    | Faulted r => (Panic r, s')
    end.

Definition fSetDNSByMAC (env : Env) (interfaceMACAddr : HardwareAddr)
    (dns : IP) (op : Operation) : M (option error) :=
  Call env (SetDNSByMAC interfaceMACAddr (dnsStringOf dns) op).

Definition fSetDNSByLocalIP (env : Env) (interfaceLocalAddr : IP)
    (dns : IP) (op : Operation) : M (option error) :=
  Call env (SetDNSByLocalIP interfaceLocalAddr (dnsStringOf dns) op).

(** The loop of [getMACAddrByIPinNetwork] over the enumerated networks. *)
Fixpoint matchNetworks (env : Env) (addr localAddrToSkip : IP)
    (networks : list IPNet) (ret : list HardwareAddr) : list HardwareAddr :=
  match networks with
  | [] => ret
  | network :: rest =>
      if Equal (ipnIP network) localAddrToSkip then
        matchNetworks env addr localAddrToSkip rest ret
      else if Contains network addr then
        match InterfaceByIPAddr env (ipnIP network) with
        | inr _ => matchNetworks env addr localAddrToSkip rest ret
        | inl None => matchNetworks env addr localAddrToSkip rest ret
        | inl (Some infs) =>
            if isNil (ifHardwareAddr infs) then
              matchNetworks env addr localAddrToSkip rest ret
            else
              matchNetworks env addr localAddrToSkip rest
                (ret ++ [ifHardwareAddr infs])
        end
      else matchNetworks env addr localAddrToSkip rest ret
  end.

(** [getMACAddrByIPinNetwork]: the pair [(ret, err)]. *)
Definition getMACAddrByIPinNetwork (env : Env) (addr localAddrToSkip : IP)
    : list HardwareAddr * option error :=
  if isNil addr then ([], None)
  else
    match GetAllLocalV4Addresses env with
    | inr err => ([], Some (Errorf "error receiving local V4 addresses " err))
    | inl networks => (matchNetworks env addr localAddrToSkip networks [], None)
    end.

(** The body of [implDeleteManual]; the error of the resolver is
    assigned to [err] and overwritten by every [return]. *)
Definition implDeleteManual_body (env : Env) (localInterfaceIP : IP) : M unit :=
  lastDNS <- getLastDNS ;;
  let notVpnIfcMACToUpdate := fst (getMACAddrByIPinNetwork env lastDNS localInterfaceIP) in
  if isNil localInterfaceIP && (length notVpnIfcMACToUpdate <=? 0)%nat then
    return_ None
  else
    (if negb (isNil localInterfaceIP) then
       err <- fSetDNSByLocalIP env localInterfaceIP IPv4zero OperationSet ;;
       match err with
       | Some e => return_ (Some (Errorf "failed to reset DNS for local interface" e))
       | None => continue tt
       end
     else continue tt) ;;
    (if (0 <? length notVpnIfcMACToUpdate)%nat then
       range notVpnIfcMACToUpdate (fun mac =>
         lastDNS' <- getLastDNS ;;
         err <- fSetDNSByMAC env mac lastDNS' OperationDel ;;
         match err with
         | Some e => return_ (Some (Errorf "failed to reset DNS for interface by MAC" e))
         | None => continue tt
         end)
     else continue tt) ;;
    setLastDNS None ;;
    return_ None.

Definition implDeleteManual (env : Env) (localInterfaceIP : IP)
    : State -> option error * State :=
  catchPanic (implDeleteManual_body env localInterfaceIP).

(** The body of [implSetManual]. *)
Definition implSetManual_body (env : Env) (addr localInterfaceIP : IP) : M unit :=
  lastDNS <- getLastDNS ;;
  if Equal addr lastDNS then return_ None
  else
    (if negb (isNil lastDNS) then
       fun s =>
         match implDeleteManual env None s with
         | (Some e, s') => (Return (Some (Errorf "Failed to set DNS" e)), s')
         | (None, s') => (Continue tt, s')
         end
     else continue tt) ;;
    let notVpnIfcMACToUpdate := fst (getMACAddrByIPinNetwork env addr localInterfaceIP) in
    if isNil localInterfaceIP && (length notVpnIfcMACToUpdate <=? 0)%nat then
      return_ None
    else
      (if negb (isNil localInterfaceIP) then
         err <- fSetDNSByLocalIP env localInterfaceIP addr OperationSet ;;
         match err with
         | Some e => return_ (Some (Errorf "failed to set DNS for local interface" e))
         | None => continue tt
         end
       else continue tt) ;;
      (if (0 <? length notVpnIfcMACToUpdate)%nat then
         range notVpnIfcMACToUpdate (fun mac =>
           err <- fSetDNSByMAC env mac addr OperationAdd ;;
           match err with
           | Some e => return_ (Some (Errorf "failed to set DNS for interface by MAC" e))
           | None => continue tt
           end)
       else continue tt) ;;
      setLastDNS addr ;;
      return_ None.

Definition implSetManual (env : Env) (addr localInterfaceIP : IP)
    : State -> option error * State :=
  catchPanic (implSetManual_body env addr localInterfaceIP).

End Dns.

(* ===================================================================== *)
(** * vpn/wireguard/wireguard_linux.go                                    *)
(* ===================================================================== *)

Module WireGuard.
Import Net.

(** [type operation int] with the constants [disconnect] and [resume];
    the constants live in [Op] because the methods share their names. *)
Module Op.
Inductive operation := disconnect | resume.

Definition eqb (a b : operation) : bool :=
  match a, b with
  | disconnect, disconnect => true
  | resume, resume => true
  | _, _ => false
  end.
End Op.

(** A buffered Go channel of [operation]: its capacity and the values
    sent and not yet received, oldest first. *)
Record chan := { capacity : nat; buffer : list Op.operation }.

(** [make(chan operation, n)] *)
Definition make (n : nat) : chan := {| capacity := n; buffer := [] |}.

(** [select { case ch <- v: default: }]: the send happens when the
    buffer has room; a nil channel is never ready. *)
Definition trySend (ch : option chan) (v : Op.operation) : option chan :=
  match ch with
  | None => None
  | Some c =>
      if (length (buffer c) <? capacity c)%nat
      then Some {| capacity := capacity c; buffer := buffer c ++ [v] |}
      else Some c
  end.

(** [<-ch]: the oldest buffered value; [None] when the receive blocks. *)
Definition receive (ch : option chan) : option (Op.operation * option chan) :=
  match ch with
  | None => None
  | Some c =>
      match buffer c with
      | [] => None
      | v :: rest => Some (v, Some {| capacity := capacity c; buffer := rest |})
      end
  end.

(** [type internalVariables struct] *)
Record internalVariables := {
  manualDNS : IP;
  isRunning : bool;
  isPaused : bool;
  resumeDisconnectChan : option chan
}.

(** The fields of the connection parameters that [connect] reads. *)
Record ConnectionParams := {
  clientLocalIP : IP;
  hostLocalIP : IP;
  hostIP : IP
}.

(** The fields of [WireGuard] that the Linux implementation uses. *)
Record WireGuard := {
  binaryPath : string;
  configFilePath : string;
  connectParams : ConnectionParams;
  internals : internalVariables
}.

Definition withInternals (wg : WireGuard) (i : internalVariables) : WireGuard :=
  {| binaryPath := binaryPath wg; configFilePath := configFilePath wg;
     connectParams := connectParams wg; internals := i |}.

Definition withRunning (b : bool) (wg : WireGuard) : WireGuard :=
  withInternals wg
    {| manualDNS := manualDNS (internals wg); isRunning := b;
       isPaused := isPaused (internals wg);
       resumeDisconnectChan := resumeDisconnectChan (internals wg) |}.

Definition withPaused (b : bool) (wg : WireGuard) : WireGuard :=
  withInternals wg
    {| manualDNS := manualDNS (internals wg); isRunning := isRunning (internals wg);
       isPaused := b;
       resumeDisconnectChan := resumeDisconnectChan (internals wg) |}.

Definition withChan (ch : option chan) (wg : WireGuard) : WireGuard :=
  withInternals wg
    {| manualDNS := manualDNS (internals wg); isRunning := isRunning (internals wg);
       isPaused := isPaused (internals wg);
       resumeDisconnectChan := ch |}.

Definition withManualDNS (addr : IP) (wg : WireGuard) : WireGuard :=
  withInternals wg
    {| manualDNS := addr; isRunning := isRunning (internals wg);
       isPaused := isPaused (internals wg);
       resumeDisconnectChan := resumeDisconnectChan (internals wg) |}.

(** Errors: one reported by a collaborator, or [fmt.Errorf(msg ": %w", _)]. *)
Inductive error :=
| External (msg : string)
| Errorf (msg : string) (cause : error).

(** What the controller does to the outside world. *)
Inductive Event :=
| GenerateAndSaveConfigFile (path : string)
| ExecUp (binary config : string)           (* [<binary> up <config>] *)
| ExecDown (binary config : string)         (* [<binary> down <config>] *)
| DnsSetManual (addr localInterfaceIP : IP) (* [dns.SetManual] *)
| DnsDeleteManual (localInterfaceIP : IP)   (* [dns.DeleteManual] *)
| StateConnected (clientIP hostIP : IP)     (* sent on [stateChan] *)
| RemoveConfigFile (path : string)
| ConnectReturned (err : option error).

(** The result of a method: its error, the receiver afterwards, and the
    events it caused. *)
Definition Result : Type := option error * WireGuard * list Event.

(** [internalDisconnect]; [r] is what [shell.Exec] answers. *)
Definition internalDisconnect (r : option error) (wg : WireGuard)
    : option error * list Event :=
  (match r with
   | Some e => Some (Errorf "failed to stop WireGuard" e)
   | None => None
   end,
   [ExecDown (binaryPath wg) (configFilePath wg)]).

Definition isPaused' (wg : WireGuard) : bool := isPaused (internals wg).

(** [pause] *)
Definition pause (r : option error) (wg : WireGuard) : Result :=
  if negb (isRunning (internals wg)) then (None, wg, [])
  else
    let wg' := withPaused true wg in
    (fst (internalDisconnect r wg'), wg', snd (internalDisconnect r wg')).

(** [resume] *)
Definition resume (wg : WireGuard) : Result :=
  if negb (isPaused (internals wg)) || negb (isRunning (internals wg))
  then (None, wg, [])
  else
    let wg' := withPaused false wg in
    (None,
     withChan (trySend (resumeDisconnectChan (internals wg')) Op.resume) wg',
     []).

(** [disconnect] *)
Definition disconnect (r : option error) (wg : WireGuard) : Result :=
  let wg' := withChan (trySend (resumeDisconnectChan (internals wg)) Op.disconnect) wg in
  if isPaused' wg' then resume wg'
  else (fst (internalDisconnect r wg'), wg', snd (internalDisconnect r wg')).

(** [setManualDNS]; [r] is what [dns.SetManual] answers. *)
Definition setManualDNS (addr : IP) (r : option error) (wg : WireGuard) : Result :=
  let wg' := withManualDNS addr wg in
  if isPaused' wg' || negb (isRunning (internals wg')) then (None, wg', [])
  else (r, wg', [DnsSetManual addr None]).

(** [resetManualDNS] *)
Definition resetManualDNS (r : option error) (wg : WireGuard) : Result :=
  let wg' := withManualDNS None wg in
  if isPaused' wg' then (None, wg', [])
  else if isRunning (internals wg')
  then (r, wg', [DnsSetManual (hostLocalIP (connectParams wg')) None])
  else (r, wg', [DnsDeleteManual None]).

(** ** [connect], one statement at a time

    [connect] blocks for the lifetime of the tunnel while the other
    methods are called from other goroutines, so it is modelled by the
    place it has reached. *)
Inductive Location :=
| NotConnecting                   (* no call of [connect] is executing *)
| AtGenerateConfig                (* top of the loop *)
| AtExecUp                        (* [cmd.CombinedOutput()] *)
| AtSetDNS                        (* [dns.SetManual(dnsIP, nil)] *)
| AtNotify                        (* [stateChan <- ...] *)
| AtWaitInterface                 (* the polling loop *)
| AtRestoreDNS (err : option error) (* the deferred [dns.DeleteManual(nil)] *)
| AtCheckPaused                   (* [if wg.isPaused()] *)
| AtReceive                       (* [op := <-wg.internals.resumeDisconnectChan] *)
| AtExit (err : option error)     (* the deferred function of [connect] *).

Record System := {
  wg : WireGuard;
  pc : Location;
  trace : list Event
}.

(** The DNS address [connect] applies: the manual one when it is set. *)
Definition dnsIP (w : WireGuard) : IP :=
  if negb (isNil (manualDNS (internals w))) then manualDNS (internals w)
  else hostLocalIP (connectParams w).

(** Entry of [connect]: the running flag and a fresh channel. *)
Definition connectEnter (s : System) : option System :=
  match pc s with
  | NotConnecting =>
      Some {| wg := withChan (Some (make 1)) (withRunning true (wg s));
              pc := AtGenerateConfig;
              trace := trace s |}
  | _ => None
  end.

Definition goto (s : System) (l : Location) (evs : list Event) : System :=
  {| wg := wg s; pc := l; trace := trace s ++ evs |}.

(** The next statement of [connect]; [r] is the answer of the
    collaborator that statement calls, if it calls one.  [None] when
    [connect] is not executing or is blocked. *)
Definition connectStep (r : option error) (s : System) : option System :=
  match pc s with
  | NotConnecting => None
  | AtGenerateConfig =>
      let ev := [GenerateAndSaveConfigFile (configFilePath (wg s))] in
      match r with
      | Some e => Some (goto s (AtExit (Some (Errorf "failed to save WG config file" e))) ev)
      | None => Some (goto s AtExecUp ev)
      end
  | AtExecUp =>
      let ev := [ExecUp (binaryPath (wg s)) (configFilePath (wg s))] in
      match r with
      | Some e => Some (goto s (AtExit (Some (Errorf "failed to start WireGuard" e))) ev)
      | None => Some (goto s AtSetDNS ev)
      end
  | AtSetDNS =>
      let ev := [DnsSetManual (dnsIP (wg s)) None] in
      match r with
      | Some e => Some (goto s (AtRestoreDNS (Some (Errorf "failed to set DNS" e))) ev)
      | None => Some (goto s AtNotify ev)
      end
  | AtNotify =>
      Some (goto s AtWaitInterface
              [StateConnected (clientLocalIP (connectParams (wg s)))
                              (hostIP (connectParams (wg s)))])
  | AtWaitInterface => Some (goto s (AtRestoreDNS None) [])
  | AtRestoreDNS err =>
      let ev := [DnsDeleteManual None] in
      match err with
      | Some e => Some (goto s (AtExit (Some e)) ev)
      | None => Some (goto s AtCheckPaused ev)
      end
  | AtCheckPaused =>
      if isPaused' (wg s) then Some (goto s AtReceive [])
      else Some (goto s (AtExit None) [])
  | AtReceive =>
      match receive (resumeDisconnectChan (internals (wg s))) with
      | None => None
      | Some (op, ch) =>
          let s' := {| wg := withChan ch (wg s); pc := pc s; trace := trace s |} in
          if negb (Op.eqb op Op.resume) then Some (goto s' (AtExit None) [])
          else Some (goto s' AtGenerateConfig [])
      end
  | AtExit err =>
      Some {| wg := withRunning false (wg s);
              pc := NotConnecting;
              trace := trace s ++ [RemoveConfigFile (configFilePath (wg s));
                                   ConnectReturned err] |}
  end.

(** What can happen next: the service calls a method from another
    goroutine, or [connect] executes its next statement.  A method call
    is one step: the methods are short and do not block, and the flags
    they share with [connect] are read and written without a lock, so the
    interleavings kept here are those of whole method calls with the
    statements of [connect]. *)
Inductive Action :=
| CallConnect
| ConnectStep (r : option error)
| CallPause (r : option error)
| CallResume
| CallDisconnect (r : option error)
| CallSetManualDNS (addr : IP) (r : option error)
| CallResetManualDNS (r : option error).

Definition method (res : Result) (s : System) : option System :=
  Some {| wg := snd (fst res); pc := pc s; trace := trace s ++ snd res |}.

Definition step (a : Action) (s : System) : option System :=
  match a with
  | CallConnect => connectEnter s
  | ConnectStep r => connectStep r s
  | CallPause r => method (pause r (wg s)) s
  | CallResume => method (resume (wg s)) s
  | CallDisconnect r => method (disconnect r (wg s)) s
  | CallSetManualDNS addr r => method (setManualDNS addr r (wg s)) s
  | CallResetManualDNS r => method (resetManualDNS r (wg s)) s
  end.

Fixpoint run (actions : list Action) (s : System) : option System :=
  match actions with
  | [] => Some s
  | a :: rest =>
      match step a s with
      | Some s' => run rest s'
      | None => None
      end
  end.

(** A controller before its first [connect]: zero-valued internals. *)
Definition initial (binary config : string) (params : ConnectionParams) : System :=
  {| wg := {| binaryPath := binary; configFilePath := config;
              connectParams := params;
              internals := {| manualDNS := None; isRunning := false;
                              isPaused := false;
                              resumeDisconnectChan := None |} |};
     pc := NotConnecting;
     trace := [] |}.

Definition reachable (s : System) : Prop :=
  exists binary config params actions,
    run actions (initial binary config params) = Some s.

End WireGuard.

(* ===================================================================== *)
(** * Reference definitions and scenarios used by the statements          *)
(* ===================================================================== *)

Module DnsScenarios.
Import Net Dns.

(** The topology resolver in the words of the design: of the enumerated
    attachments keep those whose own address is not the excluded one and
    whose subnet contains the target, and take the hardware address of
    each one that resolves to an interface that has one. *)
Definition resolveHardwareAddr (env : Env) (n : IPNet) : list HardwareAddr :=
  match InterfaceByIPAddr env (ipnIP n) with
  | inl (Some infs) =>
      if isNil (ifHardwareAddr infs) then [] else [ifHardwareAddr infs]
  | inl None => []
  | inr _ => []
  end.

Definition matchingInterfaces (env : Env) (targetAddr excludeLocalAddr : IP)
    (networks : list IPNet) : list HardwareAddr :=
  flat_map (resolveHardwareAddr env)
    (filter (fun n => negb (Equal (ipnIP n) excludeLocalAddr) && Contains n targetAddr)
       networks).

(** The same operating system with another answer to the enumeration. *)
Definition withNetworks (env : Env) (answer : list IPNet + error) : Env :=
  {| GetAllLocalV4Addresses := answer;
     InterfaceByIPAddr := InterfaceByIPAddr env;
     helper := helper env |}.

(** A helper call succeeded when [checkDefaultAPIResp] finds no error. *)
Definition succeeded (o : CallOutcome) : bool :=
  match o with
  | Returned retval errno =>
      match checkDefaultAPIResp retval errno with
      | None => true
      | Some _ => false
      end
  | Faulted _ => false
  end.

(** A helper that always succeeds. *)
Definition helperOk : list NativeCall -> NativeCall -> CallOutcome :=
  fun _ _ => Returned 0 0.

(** A statement is quiet when it leaves [_lastDNS] alone and never
    returns [nil] from the enclosing function. *)
Definition quiet {A} (c : M A) : Prop :=
  forall s, _lastDNS (snd (c s)) = _lastDNS s /\ fst (c s) <> Return None.

(** The test that makes both functions return at once. *)
Definition nothingToDo (localInterfaceIP : IP) (macs : list HardwareAddr) : bool :=
  isNil localInterfaceIP && (length macs <=? 0)%nat.

(** ** A host with the tunnel interface and one LAN interface

    The tunnel interface has the address 10.5.0.2; the LAN interface has
    the hardware address aa:bb:cc:dd:ee:ff and the address 10.0.0.[k] in
    10.0.0.0/24. *)
Definition dns_10_0_0_1 : IP := IPv4 10 0 0 1.
Definition tunnel_10_5_0_2 : IP := IPv4 10 5 0 2.
Definition lanMAC : HardwareAddr := Some [170; 187; 204; 221; 238; 255].

Definition tunnelNet : IPNet :=
  {| ipnIP := Some [10; 5; 0; 2]; ipnMask := [255; 255; 255; 255] |}.

Definition lanNet (k : byte) : IPNet :=
  {| ipnIP := Some [10; 0; 0; k]; ipnMask := [255; 255; 255; 0] |}.

Definition lanInterfaceByIPAddr (k : byte) (ip : IP) : option Interface + error :=
  if Equal ip (Some [10; 0; 0; k])
  then inl (Some {| ifHardwareAddr := lanMAC |})
  else inr (ErrorsNew "no such network interface").

Definition lanHost (k : byte) (h : list NativeCall -> NativeCall -> CallOutcome) : Env :=
  {| GetAllLocalV4Addresses := inl [tunnelNet; lanNet k];
     InterfaceByIPAddr := lanInterfaceByIPAddr k;
     helper := h |}.

(** The same host with a second attachment to 10.0.0.0/24, at 10.0.0.9,
    whose interface cannot be resolved. *)
Definition lanHostUnresolved : Env :=
  {| GetAllLocalV4Addresses := inl [tunnelNet; lanNet 9; lanNet 5];
     InterfaceByIPAddr := lanInterfaceByIPAddr 5;
     helper := helperOk |}.

(** A host whose interfaces cannot be enumerated. *)
Definition hostNoEnumeration : Env :=
  {| GetAllLocalV4Addresses := inr (ErrorsNew "route ip+net: no such network interface");
     InterfaceByIPAddr := lanInterfaceByIPAddr 5;
     helper := helperOk |}.

(** A host with two LAN interfaces in 10.0.0.0/24, at 10.0.0.5 and
    10.0.0.6. *)
Definition lanMAC2 : HardwareAddr := Some [2; 0; 0; 0; 0; 1].

Definition twoLanInterfaceByIPAddr (ip : IP) : option Interface + error :=
  if Equal ip (Some [10; 0; 0; 5]) then inl (Some {| ifHardwareAddr := lanMAC |})
  else if Equal ip (Some [10; 0; 0; 6]) then inl (Some {| ifHardwareAddr := lanMAC2 |})
  else inr (ErrorsNew "no such network interface").

Definition twoLanHost (h : list NativeCall -> NativeCall -> CallOutcome) : Env :=
  {| GetAllLocalV4Addresses := inl [tunnelNet; lanNet 5; lanNet 6];
     InterfaceByIPAddr := twoLanInterfaceByIPAddr;
     helper := h |}.

(** A helper that answers the error code 5 to the call made after [n]
    earlier ones, and succeeds otherwise. *)
Definition helperFailsAt (n : nat) : list NativeCall -> NativeCall -> CallOutcome :=
  fun history _ => if Nat.eqb (length history) n then Returned 5 0 else Returned 0 0.

(** The controller with the tracked value [dns] and no call made yet. *)
Definition tracking (dns : IP) : State := {| _lastDNS := dns; calls := [] |}.

Definition dns_8_8_8_8 : IP := IPv4 8 8 8 8.

(** A statement proceeds when it always continues to the next one. *)
Definition proceeds (c : M unit) : Prop :=
  forall s, exists s', c s = (Continue tt, s').

End DnsScenarios.

Module WireGuardScenarios.
Import Net WireGuard.

Definition isExecUp (e : Event) : bool :=
  match e with
  | ExecUp _ _ => true
  | _ => false
  end.

Definition isCallConnect (a : Action) : bool :=
  match a with
  | CallConnect => true
  | _ => false
  end.

Definition running (s : System) : bool := isRunning (internals (wg s)).
Definition paused (s : System) : bool := isPaused (internals (wg s)).
Definition mailbox (s : System) : option chan := resumeDisconnectChan (internals (wg s)).

(** The control channel, once made, has capacity one and holds at most
    one value. *)
Definition mailboxBounded (s : System) : Prop :=
  match mailbox s with
  | None => True
  | Some c => capacity c = 1%nat /\ (length (buffer c) <= 1)%nat
  end.

(** [connect] is about to receive a pending [disconnect], or is already
    past its loop. *)
Definition leaving (s : System) : Prop :=
  (pc s = AtReceive /\
   mailbox s = Some {| capacity := 1; buffer := [Op.disconnect] |})
  \/ pc s = AtExit None
  \/ pc s = NotConnecting.

(** A tunnel with the client address 10.5.0.2 and the gateway 10.5.0.1. *)
Definition params : ConnectionParams :=
  {| clientLocalIP := IPv4 10 5 0 2;
     hostLocalIP := IPv4 10 5 0 1;
     hostIP := IPv4 203 0 113 7 |}.

Definition start : System := initial "/usr/bin/wg-quick" "/tmp/wgivpn.conf" params.

(** [connect] up to the start of the backend. *)
Definition untilBackendUp : list Action :=
  [CallConnect; ConnectStep None; ConnectStep None].

(** [connect] up to the wait for the interface to disappear. *)
Definition untilConnected : list Action :=
  untilBackendUp ++ [ConnectStep None; ConnectStep None].

(** [pause] on the connected tunnel, and [connect] up to its receive. *)
Definition untilPaused : list Action :=
  untilConnected ++ [CallPause None; ConnectStep None; ConnectStep None; ConnectStep None].

(** [disconnect] and then [pause] on the connected tunnel, and [connect]
    to its end. *)
Definition disconnectThenPause : list Action :=
  untilConnected ++
  [CallDisconnect None; CallPause None;
   ConnectStep None; ConnectStep None; ConnectStep None; ConnectStep None;
   ConnectStep None].

(** [disconnect] on the connected tunnel, not yet noticed by [connect]. *)
Definition disconnectRequested : list Action :=
  untilConnected ++ [CallDisconnect None].

(** [resume] and a second [pause] before [connect] has taken the resume
    signal, then [disconnect], and [connect] up to the start of the
    backend. *)
Definition disconnectWithPendingResume : list Action :=
  untilPaused ++
  [CallResume; CallPause None; CallDisconnect None;
   ConnectStep None; ConnectStep None; ConnectStep None].

(** The state a run ends in ([start] if the run is not possible). *)
Definition theSystem (o : option System) : System :=
  match o with
  | Some s => s
  | None => start
  end.

End WireGuardScenarios.

(* ===================================================================== *)
(** * Helper calls as a plan carried out until the first failure          *)
(* ===================================================================== *)

Module DnsPlans.
Import Net Dns DnsScenarios.

(** The helper calls [implDeleteManual] has to make: the reset of the
    tunnel interface if its address is given, then the removal of the
    tracked value from each matching interface. *)
Definition deletePlan (env : Env) (lastDNS localInterfaceIP : IP) : list NativeCall :=
  (if isNil localInterfaceIP then []
   else [SetDNSByLocalIP localInterfaceIP (dnsStringOf IPv4zero) OperationSet])
  ++ map (fun mac => SetDNSByMAC mac (dnsStringOf lastDNS) OperationDel)
       (fst (getMACAddrByIPinNetwork env lastDNS localInterfaceIP)).

(** The helper calls [implSetManual] has to make once the previous value
    is out of the way. *)
Definition setPlan (env : Env) (addr localInterfaceIP : IP) : list NativeCall :=
  (if isNil localInterfaceIP then []
   else [SetDNSByLocalIP localInterfaceIP (dnsStringOf addr) OperationSet])
  ++ map (fun mac => SetDNSByMAC mac (dnsStringOf addr) OperationAdd)
       (fst (getMACAddrByIPinNetwork env addr localInterfaceIP)).

(** The calls of a plan that are made when it is carried out in order
    and given up at the first call that does not succeed. *)
Fixpoint attempted (h : list NativeCall -> NativeCall -> CallOutcome)
    (history plan : list NativeCall) : list NativeCall :=
  match plan with
  | [] => []
  | c :: rest =>
      if succeeded (h history c) then c :: attempted h (history ++ [c]) rest
      else [c]
  end.

(** Whether every call of the plan succeeds. *)
Fixpoint allSucceed (h : list NativeCall -> NativeCall -> CallOutcome)
    (history plan : list NativeCall) : bool :=
  match plan with
  | [] => true
  | c :: rest => succeeded (h history c) && allSucceed h (history ++ [c]) rest
  end.

(** The interface a helper call is made on. *)
Definition target (c : NativeCall) : HardwareAddr + IP :=
  match c with
  | SetDNSByMAC mac _ _ => inl mac
  | SetDNSByLocalIP ip _ _ => inr ip
  end.

(** A statement carries out a plan from [s]: it makes the attempted
    calls, leaves [_lastDNS] alone, continues when all calls succeed and
    leaves the function with an error or a panic otherwise. *)
Definition carriesOut (env : Env) (c : M unit) (plan : list NativeCall) (s : State) : Prop :=
  calls (snd (c s)) = calls s ++ attempted (helper env) (calls s) plan
  /\ _lastDNS (snd (c s)) = _lastDNS s
  /\ (if allSucceed (helper env) (calls s) plan
      then fst (c s) = Continue tt
      else (exists e, fst (c s) = Return (Some e)) \/ (exists r, fst (c s) = Panic r)).

End DnsPlans.

(* ===================================================================== *)
(** * Invariants of the tunnel lifecycle controller                       *)
(* ===================================================================== *)

Module WireGuardInvariants.
Import Net WireGuard WireGuardScenarios.

Definition isGenerateConfig (e : Event) : bool :=
  match e with
  | GenerateAndSaveConfigFile _ => true
  | _ => false
  end.

Definition isConnectReturned (e : Event) : bool :=
  match e with
  | ConnectReturned _ => true
  | _ => false
  end.

Definition isManualDNSCall (a : Action) : bool :=
  match a with
  | CallSetManualDNS _ _ => true
  | CallResetManualDNS _ => true
  | _ => false
  end.

Definition connecting (l : Location) : bool :=
  match l with
  | NotConnecting => false
  | _ => true
  end.

(** The places of [connect] between the start of the backend and the
    end of the iteration. *)
Definition backendStarted (l : Location) : bool :=
  match l with
  | AtSetDNS | AtNotify | AtWaitInterface | AtRestoreDNS _
  | AtCheckPaused | AtReceive => true
  | _ => false
  end.

(** The running flag is set exactly while [connect] executes. *)
Definition runningWhileConnecting (s : System) : Prop :=
  running s = connecting (pc s).

(** Every start of the backend has its own configuration write before
    it; at [AtExecUp] one write is still unused. *)
Definition startsBounded (s : System) : Prop :=
  (length (filter isExecUp (trace s))
   + (match pc s with AtExecUp => 1 | _ => 0 end)
   <= length (filter isGenerateConfig (trace s)))%nat.

(** A disconnect signal is pending and the backend of this iteration
    has been started, or [connect] is past its loop. *)
Definition winding (s : System) : Prop :=
  (backendStarted (pc s) = true /\
   mailbox s = Some {| capacity := 1; buffer := [Op.disconnect] |})
  \/ (exists e, pc s = AtExit e)
  \/ pc s = NotConnecting.

End WireGuardInvariants.

(* ===================================================================== *)
(** * service: notification of WiFi changes                               *)
(* ===================================================================== *)

Module WiFi.

(** [wifiNotifier.WiFiSecurity], an integer type of a package that is
    not part of these files. *)
Definition WiFiSecurity := Z.

(** [type wifiInfo struct] *)
Record wifiInfo := { ssid : string; security : WiFiSecurity }.

Section Notifier.

(** [wifiNotifier.WiFiSecurityNone] and [wifiNotifier.WiFiSecurityWEP]. *)
Variables WiFiSecurityNone WiFiSecurityWEP : WiFiSecurity.

(** [func (inf *wifiInfo) IsInsecure() bool] *)
Definition IsInsecure (inf : wifiInfo) : bool :=
  (security inf =? WiFiSecurityNone) || (security inf =? WiFiSecurityWEP).

(** [func isInsecureWiFi(security wifiNotifier.WiFiSecurity) bool] *)
Definition isInsecureWiFi (sec : WiFiSecurity) : bool :=
  (sec =? WiFiSecurityNone) || (sec =? WiFiSecurityWEP).

(** A timer made by [time.AfterFunc]: waiting for its delay, expired
    with its function started in a goroutine of its own, stopped before
    it expired, or finished. *)
Inductive TimerState := Pending | Started | Stopped | Finished.

(** A timer of [onWiFiChanged] and the [ssid] and [security] its
    function has captured. *)
Record Timer := { captured : wifiInfo; status : TimerState }.

(** The package variables [lastWiFiInfo] and [timerDelayedNotify] (a
    timer is named by its place in the list of all timers made), and the
    calls of [s._evtReceiver.OnWiFiChanged] made so far. *)
Record Service := {
  lastWiFiInfo : option wifiInfo;
  timerDelayedNotify : option nat;
  timers : list Timer;
  notified : list (string * bool)
}.

Definition initial : Service :=
  {| lastWiFiInfo := None; timerDelayedNotify := None; timers := []; notified := [] |}.

(** The state of timer [t] replaced by [f] of it. *)
Fixpoint updateTimer (f : TimerState -> TimerState) (t : nat) (l : list Timer)
    : list Timer :=
  match l, t with
  | [], _ => []
  | x :: rest, O => {| captured := captured x; status := f (status x) |} :: rest
  | x :: rest, S t' => x :: updateTimer f t' rest
  end.

(** [Stop] of [time.Timer]: a pending timer will not fire; any other is
    left as it is. *)
Definition Stop (t : nat) (l : list Timer) : list Timer :=
  updateTimer (fun st => match st with Pending => Stopped | _ => st end) t l.

(** [onWiFiChanged]; [sec] is what
    [wifiNotifier.GetCurrentNetworkSecurity()] answers. *)
Definition onWiFiChanged (name : string) (sec : WiFiSecurity) (s : Service) : Service :=
  let inf := {| ssid := name; security := sec |} in
  let stopped := match timerDelayedNotify s with
                 | Some t => Stop t (timers s)
                 | None => timers s
                 end in
  {| lastWiFiInfo := Some inf;
     timerDelayedNotify := Some (length stopped);
     timers := stopped ++ [{| captured := inf; status := Pending |}];
     notified := notified s |}.

(** The function handed to [time.AfterFunc], with the [ssid] and
    [security] it has captured. *)
Definition delayedNotify (inf : wifiInfo) (s : Service) : Service :=
  match lastWiFiInfo s with
  | None => s
  | Some last =>
      if negb (String.eqb (ssid last) (ssid inf))
         || negb (security last =? security inf)
      then s
      else {| lastWiFiInfo := lastWiFiInfo s;
              timerDelayedNotify := timerDelayedNotify s;
              timers := timers s;
              notified := notified s ++ [(ssid inf, isInsecureWiFi (security inf))] |}
  end.

(** What can happen: the notifier reports a change, the delay of a
    pending timer runs out, or the function of an expired timer runs.
    The delay itself is not modelled: a pending timer may expire at any
    moment. *)
Inductive Action :=
| WiFiChanged (name : string) (sec : WiFiSecurity)
| Expire (t : nat)
| RunCallback (t : nat).

Definition withTimers (l : list Timer) (s : Service) : Service :=
  {| lastWiFiInfo := lastWiFiInfo s; timerDelayedNotify := timerDelayedNotify s;
     timers := l; notified := notified s |}.

Definition step (a : Action) (s : Service) : option Service :=
  match a with
  | WiFiChanged name sec => Some (onWiFiChanged name sec s)
  | Expire t =>
      match nth_error (timers s) t with
      | Some {| captured := _; status := Pending |} =>
          Some (withTimers (updateTimer (fun _ => Started) t (timers s)) s)
      | _ => None
      end
  | RunCallback t =>
      match nth_error (timers s) t with
      | Some {| captured := inf; status := Started |} =>
          Some (delayedNotify inf
                  (withTimers (updateTimer (fun _ => Finished) t (timers s)) s))
      | _ => None
      end
  end.

Fixpoint run (actions : list Action) (s : Service) : option Service :=
  match actions with
  | [] => Some s
  | a :: rest =>
      match step a s with
      | Some s' => run rest s'
      | None => None
      end
  end.

Definition reachable (s : Service) : Prop :=
  exists actions, run actions initial = Some s.

Definition isChange (a : Action) : bool :=
  match a with
  | WiFiChanged _ _ => true
  | _ => false
  end.

Definition active (st : TimerState) : bool :=
  match st with
  | Pending | Started => true
  | _ => false
  end.

(** Only the timer of the latest change is pending. *)
Definition onePending (s : Service) : Prop :=
  forall t tm,
    nth_error (timers s) t = Some tm ->
    status tm = Pending ->
    timerDelayedNotify s = Some t /\ lastWiFiInfo s = Some (captured tm).

(** Nothing has been notified and the only timer still to do its work
    is the pending timer of the latest change. *)
Definition armedOnly (s : Service) : Prop :=
  notified s = []
  /\ forall t tm,
       nth_error (timers s) t = Some tm ->
       active (status tm) = true ->
       status tm = Pending
       /\ timerDelayedNotify s = Some t
       /\ lastWiFiInfo s = Some (captured tm).

(** Since the change to [last], at most one timer is still to do its
    work, it has captured [last], and nothing has been notified before
    it has done it; at most the notification of [last] has been made. *)
Definition settling (last : wifiInfo) (s : Service) : Prop :=
  lastWiFiInfo s = Some last
  /\ (notified s = []
      \/ (notified s = [(ssid last, isInsecureWiFi (security last))]
          /\ forall t tm, nth_error (timers s) t = Some tm -> active (status tm) = false))
  /\ (forall t tm, nth_error (timers s) t = Some tm -> active (status tm) = true ->
        captured tm = last /\ notified s = []
        /\ forall t' tm', nth_error (timers s) t' = Some tm' ->
              active (status tm') = true -> t' = t).

End Notifier.

End WiFi.

(* ===================================================================== *)
(** * Properties of the DNS controller                                    *)
(* ===================================================================== *)

Module DnsSpec.
Import Net Dns DnsScenarios.
Local Open Scope go_scope.

Lemma bytesEqual_refl (a : list byte) : bytesEqual a a = true.
Proof.
  induction a as [|x a IH]; simpl; [reflexivity|].
  now rewrite Z.eqb_refl, IH.
Qed.

Lemma Equal_refl (ip : IP) : Equal ip ip = true.
Proof.
  unfold Equal. now rewrite Nat.eqb_refl, bytesEqual_refl.
Qed.

(** ** The topology resolver *)

Lemma matchingInterfaces_cons env addr skip n rest :
  matchingInterfaces env addr skip (n :: rest)
  = (if negb (Equal (ipnIP n) skip) && Contains n addr
     then resolveHardwareAddr env n else [])
    ++ matchingInterfaces env addr skip rest.
Proof.
  unfold matchingInterfaces. simpl.
  destruct (negb (Equal (ipnIP n) skip) && Contains n addr); reflexivity.
Qed.

Lemma matchNetworks_acc env addr skip networks ret :
  matchNetworks env addr skip networks ret
  = ret ++ matchingInterfaces env addr skip networks.
Proof.
  revert ret.
  induction networks as [|n rest IH]; intros ret.
  - simpl. now rewrite app_nil_r.
  - rewrite matchingInterfaces_cons. cbn [matchNetworks].
    unfold resolveHardwareAddr.
    destruct (Equal (ipnIP n) skip); cbn [negb andb app]; [apply IH|].
    destruct (Contains n addr); cbn [app]; [|apply IH].
    destruct (InterfaceByIPAddr env (ipnIP n)) as [[infs|]|e];
      cbn [app]; try apply IH.
    destruct (isNil (ifHardwareAddr infs)); cbn [app]; [apply IH|].
    now rewrite IH, <- app_assoc.
Qed.

Lemma getMAC_nil_addr env skip :
  getMACAddrByIPinNetwork env None skip = ([], None).
Proof. reflexivity. Qed.

Lemma getMAC_enumeration_failed env addr skip err :
  GetAllLocalV4Addresses env = inr err ->
  fst (getMACAddrByIPinNetwork env addr skip) = [].
Proof.
  intros H. unfold getMACAddrByIPinNetwork.
  destruct (isNil addr); [reflexivity|]. now rewrite H.
Qed.

Lemma matchingInterfaces_omit env addr skip pre n post e :
  InterfaceByIPAddr env (ipnIP n) = inr e ->
  matchingInterfaces env addr skip (pre ++ n :: post)
  = matchingInterfaces env addr skip (pre ++ post).
Proof.
  intros Hn.
  induction pre as [|m pre IH].
  - cbn [app]. rewrite matchingInterfaces_cons.
    unfold resolveHardwareAddr. rewrite Hn.
    now destruct (negb (Equal (ipnIP n) skip) && Contains n addr).
  - cbn [app]. now rewrite !matchingInterfaces_cons, IH.
Qed.

(** C9.  When the target address is given, [getMACAddrByIPinNetwork]
    returns an error if the interfaces cannot be enumerated.  When they
    can, it returns no error and the hardware addresses of the matching
    attachments, and an attachment whose interface cannot be resolved is
    left out: the result is the one obtained without that attachment. *)
Theorem getMACAddrByIPinNetwork_failures (env : Env) (addr localAddrToSkip : IP) :
  isNil addr = false ->
  (forall err, GetAllLocalV4Addresses env = inr err ->
     fst (getMACAddrByIPinNetwork env addr localAddrToSkip) = [] /\
     exists e, snd (getMACAddrByIPinNetwork env addr localAddrToSkip) = Some e)
  /\ (forall networks, GetAllLocalV4Addresses env = inl networks ->
     getMACAddrByIPinNetwork env addr localAddrToSkip
     = (matchingInterfaces env addr localAddrToSkip networks, None))
  /\ (forall pre n post e,
     GetAllLocalV4Addresses env = inl (pre ++ n :: post) ->
     InterfaceByIPAddr env (ipnIP n) = inr e ->
     getMACAddrByIPinNetwork env addr localAddrToSkip
     = getMACAddrByIPinNetwork (withNetworks env (inl (pre ++ post))) addr localAddrToSkip
     /\ snd (getMACAddrByIPinNetwork env addr localAddrToSkip) = None).
Proof.
  intros Haddr. unfold getMACAddrByIPinNetwork. rewrite Haddr.
  split; [|split].
  - intros err H. rewrite H. split; [reflexivity|]. cbn [snd]. eauto.
  - intros networks H. rewrite H. now rewrite matchNetworks_acc.
  - intros pre n post e H Hn. rewrite H.
    cbn [withNetworks GetAllLocalV4Addresses].
    rewrite !matchNetworks_acc. cbn [app snd].
    split; [|reflexivity].
    rewrite (matchingInterfaces_omit env addr localAddrToSkip pre n post e Hn).
    reflexivity.
Qed.

(** On a host where 10.0.0.9 cannot be resolved, the resolver still
    succeeds, with the hardware address of 10.0.0.5 alone. *)
Lemma getMACAddrByIPinNetwork_failures_witness :
  getMACAddrByIPinNetwork lanHostUnresolved dns_10_0_0_1 tunnel_10_5_0_2
  = ([lanMAC], None)
  /\ exists e,
       snd (getMACAddrByIPinNetwork hostNoEnumeration dns_10_0_0_1 tunnel_10_5_0_2)
       = Some e.
Proof.
  split.
  - destruct (getMACAddrByIPinNetwork_failures lanHostUnresolved
                dns_10_0_0_1 tunnel_10_5_0_2 eq_refl) as (_ & Hok & _).
    rewrite (Hok _ eq_refl). reflexivity.
  - destruct (getMACAddrByIPinNetwork_failures hostNoEnumeration
                dns_10_0_0_1 tunnel_10_5_0_2 eq_refl) as (Hfail & _).
    exact (proj2 (Hfail _ eq_refl)).
Defined.

(** ** Statements that leave the tracked value alone *)

Lemma quiet_continue {A} (a : A) : quiet (continue a).
Proof. intros s. split; [reflexivity|discriminate]. Qed.

Lemma quiet_return_error {A} (e : error) : quiet (@return_ A (Some e)).
Proof. intros s. split; [reflexivity|discriminate]. Qed.

Lemma quiet_getLastDNS : quiet getLastDNS.
Proof. intros s. split; [reflexivity|discriminate]. Qed.

Lemma quiet_Call env c : quiet (Call env c).
Proof.
  intros s. unfold Call.
  destruct (helper env (calls s) c); split; (reflexivity || discriminate).
Qed.

Lemma quiet_bind {A B} (c : M A) (k : A -> M B) :
  quiet c -> (forall a, quiet (k a)) -> quiet (bind c k).
Proof.
  intros Hc Hk s. unfold bind.
  destruct (Hc s) as [Hl Hf].
  destruct (c s) as [[a|e|r] s1]; cbn [fst snd] in *.
  - destruct (Hk a s1) as [Hl' Hf']. split; [congruence|assumption].
  - split; [assumption|]. intros H. apply Hf. now inversion H.
  - split; [assumption|discriminate].
Qed.

Lemma quiet_range {A} (l : list A) (body : A -> M unit) :
  (forall x, quiet (body x)) -> quiet (range l body).
Proof.
  intros Hb. induction l as [|x l IH]; cbn [range].
  - apply quiet_continue.
  - apply quiet_bind; [apply Hb|intros _; exact IH].
Qed.

Ltac quiet :=
  repeat first
    [ apply quiet_continue | apply quiet_return_error | apply quiet_getLastDNS
    | apply quiet_Call | apply quiet_range; intros ?
    | apply quiet_bind; [|intros ?]
    | match goal with
      | |- quiet (if ?b then _ else _) => destruct b
      | |- quiet (match ?e with Some _ => _ | None => _ end) => destruct e
      end ].

(** What a quiet statement followed by [k] does from [s]. *)
Lemma bind_quiet {A B} (c : M A) (k : A -> M B) (s : State) :
  quiet c ->
  (exists a s', _lastDNS s' = _lastDNS s /\ bind c k s = k a s')
  \/ (exists e s', _lastDNS s' = _lastDNS s /\ bind c k s = (Return (Some e), s'))
  \/ (exists r s', _lastDNS s' = _lastDNS s /\ bind c k s = (Panic r, s')).
Proof.
  intros Hc. unfold bind. destruct (Hc s) as [Hl Hf].
  destruct (c s) as [[a|[e|]|r] s1]; cbn [fst snd] in *.
  - left. eauto.
  - right; left. eauto.
  - congruence.
  - right; right. eauto.
Qed.

(** ** The outcomes of [implDeleteManual] *)

Lemma bind_continue {A B} (c : M A) (k : A -> M B) (s s' : State) (a : A) :
  c s = (Continue a, s') -> bind c k s = k a s'.
Proof. intros H. unfold bind. now rewrite H. Qed.

Lemma bind_getLastDNS {B} (k : IP -> M B) (s : State) :
  bind getLastDNS k s = k (_lastDNS s) s.
Proof. reflexivity. Qed.

Ltac quiet_step s :=
  match goal with
  | |- context [bind ?c ?k s] =>
      let a := fresh "a" in
      let s1 := fresh "s" in
      let Hl := fresh "Hl" in
      let e := fresh "e" in
      let r := fresh "r" in
      destruct (bind_quiet c k s)
        as [(a & s1 & Hl & ->)|[(e & s1 & Hl & ->)|(r & s1 & Hl & ->)]];
      [quiet| | |]
  end.

Lemma implDeleteManual_cases env ip s :
  let macs := fst (getMACAddrByIPinNetwork env (_lastDNS s) ip) in
  (nothingToDo ip macs = true /\ implDeleteManual env ip s = (None, s))
  \/ (nothingToDo ip macs = false /\
      exists s', _lastDNS s' = _lastDNS s /\
        (implDeleteManual env ip s
           = (None, {| _lastDNS := None; calls := calls s' |})
         \/ exists e, implDeleteManual env ip s = (Some e, s'))).
Proof.
  intros macs. unfold implDeleteManual, catchPanic, implDeleteManual_body.
  rewrite bind_getLastDNS. cbv zeta.
  fold macs. fold (nothingToDo ip macs).
  destruct (nothingToDo ip macs) eqn:Hn.
  - left. split; reflexivity.
  - right. split; [reflexivity|].
    quiet_step s.
    + quiet_step s0.
      * exists s1. split; [congruence|]. left. reflexivity.
      * exists s1. split; [congruence|]. right. eauto.
      * exists s1. split; [congruence|]. right. destruct r; eauto.
    + exists s0. split; [congruence|]. right. eauto.
    + exists s0. split; [congruence|]. right. destruct r; eauto.
Qed.

(** ** The outcomes of [implSetManual] *)

Lemma implSetManual_cases env addr ip s :
  (Equal addr (_lastDNS s) = true /\ implSetManual env addr ip s = (None, s))
  \/ (Equal addr (_lastDNS s) = false /\
      ((exists e sd,
          isNil (_lastDNS s) = false /\
          implDeleteManual env None s = (Some e, sd) /\
          implSetManual env addr ip s = (Some (Errorf "Failed to set DNS" e), sd))
       \/ (exists sd,
            ((isNil (_lastDNS s) = true /\ sd = s)
             \/ (isNil (_lastDNS s) = false /\
                 implDeleteManual env None s = (None, sd))) /\
            ((nothingToDo ip (fst (getMACAddrByIPinNetwork env addr ip)) = true /\
              implSetManual env addr ip s = (None, sd))
             \/ (nothingToDo ip (fst (getMACAddrByIPinNetwork env addr ip)) = false /\
                 exists s', _lastDNS s' = _lastDNS sd /\
                   (implSetManual env addr ip s
                      = (None, {| _lastDNS := addr; calls := calls s' |})
                    \/ exists e, implSetManual env addr ip s = (Some e, s'))))))).
Proof.
  unfold implSetManual, catchPanic, implSetManual_body.
  rewrite bind_getLastDNS.
  destruct (Equal addr (_lastDNS s)) eqn:Heq.
  - left. split; reflexivity.
  - right. split; [reflexivity|].
    cbv zeta.
    fold (nothingToDo ip (fst (getMACAddrByIPinNetwork env addr ip))).
    match goal with
    | |- context [bind _ (fun _ => ?rest)] => set (K := rest)
    end.
    assert (HK : forall sd,
      (nothingToDo ip (fst (getMACAddrByIPinNetwork env addr ip)) = true /\
       K sd = (Return None, sd))
      \/ (nothingToDo ip (fst (getMACAddrByIPinNetwork env addr ip)) = false /\
          exists s', _lastDNS s' = _lastDNS sd /\
            (K sd = (Return None, {| _lastDNS := addr; calls := calls s' |})
             \/ (exists e, K sd = (Return (Some e), s'))
             \/ (exists r, K sd = (Panic r, s'))))).
    { intros sd. subst K.
      destruct (nothingToDo ip (fst (getMACAddrByIPinNetwork env addr ip))).
      - left. split; reflexivity.
      - right. split; [reflexivity|].
        quiet_step sd.
        + quiet_step s0.
          * exists s1. split; [congruence|]. left. reflexivity.
          * exists s1. split; [congruence|]. right; left. eauto.
          * exists s1. split; [congruence|]. right; right. eauto.
        + exists s0. split; [congruence|]. right; left. eauto.
        + exists s0. split; [congruence|]. right; right. eauto. }
    clearbody K.
    assert (HK' : forall sd,
      (nothingToDo ip (fst (getMACAddrByIPinNetwork env addr ip)) = true /\
       catchPanic K sd = (None, sd))
      \/ (nothingToDo ip (fst (getMACAddrByIPinNetwork env addr ip)) = false /\
          exists s', _lastDNS s' = _lastDNS sd /\
            (catchPanic K sd = (None, {| _lastDNS := addr; calls := calls s' |})
             \/ (exists e, catchPanic K sd = (Some e, s'))))).
    { intros sd. unfold catchPanic.
      destruct (HK sd) as [[Hn ->]|(Hn & s' & Hl & [->|[(e & ->)|(r & ->)]])].
      - left. split; [assumption|reflexivity].
      - right. split; [assumption|]. exists s'. split; [assumption|]. now left.
      - right. split; [assumption|]. exists s'. split; [assumption|]. right. eauto.
      - right. split; [assumption|]. exists s'. split; [assumption|].
        right. destruct r; eauto. }
    clear HK. unfold catchPanic in HK'.
    destruct (isNil (_lastDNS s)) eqn:Hnil; cbn [negb]; unfold bind, continue.
    + right. exists s. split; [left; split; reflexivity|]. apply HK'.
    + destruct (implDeleteManual env None s) as [[e|] sd] eqn:Hdel.
      * left. exists e, sd. repeat split; reflexivity.
      * right. exists sd. split; [right; split; reflexivity|]. apply HK'.
Qed.

(** ** The tracked value after [implDeleteManual] *)

Lemma implDeleteManual_lastDNS env ip s :
  _lastDNS (snd (implDeleteManual env ip s)) = _lastDNS s
  \/ _lastDNS (snd (implDeleteManual env ip s)) = None.
Proof.
  destruct (implDeleteManual_cases env ip s)
    as [[_ ->]|(_ & s' & Hl & [->|(e & ->)])]; cbn [snd _lastDNS]; auto.
Qed.

Example implDeleteManual_second_interface_fails :
  implDeleteManual (twoLanHost (helperFailsAt 1)) None (tracking dns_10_0_0_1)
  = (Some (Errorf "failed to reset DNS for interface by MAC" (DNSChangeError 5)),
     {| _lastDNS := dns_10_0_0_1;
        calls := [SetDNSByMAC lanMAC (StringOf dns_10_0_0_1) OperationDel;
                  SetDNSByMAC lanMAC2 (StringOf dns_10_0_0_1) OperationDel] |}).
Proof. vm_compute. reflexivity. Qed.

Example implDeleteManual_success_clears :
  implDeleteManual (twoLanHost helperOk) tunnel_10_5_0_2 (tracking dns_10_0_0_1)
  = (None,
     {| _lastDNS := None;
        calls := [SetDNSByLocalIP tunnel_10_5_0_2 EmptyDNS OperationSet;
                  SetDNSByMAC lanMAC (StringOf dns_10_0_0_1) OperationDel;
                  SetDNSByMAC lanMAC2 (StringOf dns_10_0_0_1) OperationDel] |}).
Proof. vm_compute. reflexivity. Qed.



(** ** The tracked value after a failed [implSetManual] *)

Example implSetManual_tunnel_call_fails :
  implSetManual (lanHost 5 (helperFailsAt 1)) dns_8_8_8_8 tunnel_10_5_0_2
    (tracking dns_10_0_0_1)
  = (Some (Errorf "failed to set DNS for local interface" (DNSChangeError 5)),
     {| _lastDNS := None;
        calls := [SetDNSByMAC lanMAC (StringOf dns_10_0_0_1) OperationDel;
                  SetDNSByLocalIP tunnel_10_5_0_2 (StringOf dns_8_8_8_8) OperationSet] |}).
Proof. vm_compute. reflexivity. Qed.




(** ** When the helper succeeds *)

Section HelperSucceeds.
Variable env : Env.
Hypothesis Hok : forall history c, helper env history c = Returned 0 0.

Lemma Call_ok c s :
  Call env c s = (Continue None, {| _lastDNS := _lastDNS s; calls := calls s ++ [c] |}).
Proof. unfold Call. now rewrite Hok. Qed.

Lemma proceeds_continue : proceeds (continue tt).
Proof. intros s. now exists s. Qed.

Lemma proceeds_Call_checked c (wrap : error -> error) :
  proceeds (err <- Call env c ;;
            match err with
            | Some e => return_ (Some (wrap e))
            | None => continue tt
            end).
Proof. intros s. unfold bind. rewrite Call_ok. eexists. reflexivity. Qed.

Lemma bind_proceeds {B} (c : M unit) (k : unit -> M B) (s : State) :
  proceeds c -> exists s', bind c k s = k tt s'.
Proof.
  intros Hc. destruct (Hc s) as [s' Hs]. exists s'. unfold bind. now rewrite Hs.
Qed.

Lemma proceeds_bind (c : M unit) (k : unit -> M unit) :
  proceeds c -> proceeds (k tt) -> proceeds (bind c k).
Proof.
  intros Hc Hk s. destruct (bind_proceeds c k s Hc) as [s1 ->]. apply Hk.
Qed.

Lemma proceeds_range {A} (l : list A) (body : A -> M unit) :
  (forall x, proceeds (body x)) -> proceeds (range l body).
Proof.
  intros Hb. induction l as [|x l IH]; cbn [range].
  - apply proceeds_continue.
  - apply proceeds_bind; [apply Hb|exact IH].
Qed.

Lemma proceeds_getLastDNS (k : IP -> M unit) :
  (forall ip, proceeds (k ip)) -> proceeds (bind getLastDNS k).
Proof. intros Hk s. rewrite bind_getLastDNS. apply Hk. Qed.

Ltac proceeds :=
  repeat first
    [ apply proceeds_continue
    | apply proceeds_Call_checked
    | apply proceeds_range; intros ?
    | apply proceeds_getLastDNS; intros ?
    | match goal with
      | |- proceeds (if ?b then _ else _) => destruct b
      end ].

Ltac proceeds_step s :=
  match goal with
  | |- context [bind ?c ?k s] =>
      let s1 := fresh "s" in
      destruct (bind_proceeds c k s) as [s1 ->]; [proceeds|]
  end.

Lemma implDeleteManual_ok ip s : fst (implDeleteManual env ip s) = None.
Proof.
  unfold implDeleteManual, catchPanic, implDeleteManual_body.
  rewrite bind_getLastDNS. cbv zeta.
  match goal with |- context [if ?b then return_ None else _] => destruct b end;
    [reflexivity|].
  proceeds_step s. proceeds_step s0. reflexivity.
Qed.

Lemma implSetManual_ok addr ip s : fst (implSetManual env addr ip s) = None.
Proof.
  unfold implSetManual, catchPanic, implSetManual_body.
  rewrite bind_getLastDNS.
  destruct (Equal addr (_lastDNS s)); [reflexivity|].
  cbv zeta.
  assert (Hdel : exists sd,
    (if negb (isNil (_lastDNS s))
     then fun s0 =>
       match implDeleteManual env None s0 with
       | (Some e, s') => (Return (Some (Errorf "Failed to set DNS" e)), s')
       | (None, s') => (@Continue unit tt, s')
       end
     else continue tt) s = (Continue tt, sd)).
  { destruct (isNil (_lastDNS s)); cbn [negb].
    - now exists s.
    - pose proof (implDeleteManual_ok None s) as Hd.
      destruct (implDeleteManual env None s) as [[e|] sd]; [discriminate|].
      now exists sd. }
  destruct Hdel as [sd Hdel].
  rewrite (bind_continue _ _ _ _ _ Hdel).
  match goal with |- context [if ?b then return_ None else _] => destruct b end;
    [reflexivity|].
  proceeds_step sd. proceeds_step s0. reflexivity.
Qed.

End HelperSucceeds.

(** ** Setting the same address again *)

Lemma implSetManual_again env addr ip s s1 :
  implSetManual env addr ip s = (None, s1) ->
  implSetManual env addr ip s1 = (None, s1).
Proof.
  intros H.
  destruct (implSetManual_cases env addr ip s)
    as [[_ H1]|(_ & [(e1 & sd & _ & _ & H1)|(sd & Hsd & Hset)])].
  - congruence.
  - congruence.
  - destruct Hset as [[Hn H1]|(_ & s' & _ & [H1|(e1 & H1)])].
    + assert (sd = s1) by congruence. subst sd.
      destruct Hsd as [[_ ->]|[Hnil Hdel]]; [assumption|].
      destruct (implDeleteManual_cases env None s)
        as [[_ Hd]|(_ & s' & _ & [Hd|(e & Hd)])]; [congruence| |congruence].
      assert (Hl : _lastDNS s1 = None).
      { rewrite Hd in Hdel. injection Hdel as <-. reflexivity. }
      destruct (implSetManual_cases env addr ip s1)
        as [[_ H2]|(_ & [(e2 & sd2 & Hnil2 & _)|(sd2 & Hsd2 & Hset2)])].
      * assumption.
      * rewrite Hl in Hnil2. discriminate.
      * destruct Hsd2 as [[_ ->]|[Hnil2 _]];
          [|rewrite Hl in Hnil2; discriminate].
        destruct Hset2 as [[_ H2]|[Hn2 _]]; [assumption|congruence].
    + assert (Hl : _lastDNS s1 = addr).
      { rewrite H1 in H. injection H as <-. reflexivity. }
      destruct (implSetManual_cases env addr ip s1) as [[_ H2]|[Hne _]];
        [assumption|].
      rewrite Hl, Equal_refl in Hne. discriminate.
    + congruence.
Qed.

(** C6.  With a helper that succeeds, [implSetManual] called twice in
    a row with the same arguments returns no error both times, and the
    second call issues no helper call (it leaves the whole state, the
    record of calls included, as the first call left it). *)
Theorem implSetManual_idempotent (env : Env) (addr localInterfaceIP : IP) (s : State) :
  (forall history c, helper env history c = Returned 0 0) ->
  fst (implSetManual env addr localInterfaceIP s) = None
  /\ fst (implSetManual env addr localInterfaceIP
            (snd (implSetManual env addr localInterfaceIP s))) = None
  /\ calls (snd (implSetManual env addr localInterfaceIP
                   (snd (implSetManual env addr localInterfaceIP s))))
     = calls (snd (implSetManual env addr localInterfaceIP s)).
Proof.
  intros Hok.
  pose proof (implSetManual_ok env Hok addr localInterfaceIP s) as H1.
  destruct (implSetManual env addr localInterfaceIP s) as [err s1] eqn:Hfirst.
  cbn [fst snd] in *. subst err.
  rewrite (implSetManual_again _ _ _ _ _ Hfirst).
  repeat split.
Qed.

Lemma implSetManual_idempotent_witness :
  fst (implSetManual (lanHost 5 helperOk) dns_10_0_0_1 tunnel_10_5_0_2 (tracking None))
    = None
  /\ fst (implSetManual (lanHost 5 helperOk) dns_10_0_0_1 tunnel_10_5_0_2
            (snd (implSetManual (lanHost 5 helperOk) dns_10_0_0_1 tunnel_10_5_0_2
                    (tracking None)))) = None
  /\ calls (snd (implSetManual (lanHost 5 helperOk) dns_10_0_0_1 tunnel_10_5_0_2
                   (snd (implSetManual (lanHost 5 helperOk) dns_10_0_0_1
                           tunnel_10_5_0_2 (tracking None)))))
     = calls (snd (implSetManual (lanHost 5 helperOk) dns_10_0_0_1 tunnel_10_5_0_2
                     (tracking None))).
Proof.
  apply (implSetManual_idempotent (lanHost 5 helperOk) dns_10_0_0_1
           tunnel_10_5_0_2 (tracking None)).
  intros history c. reflexivity.
Defined.

(** ** When the interfaces cannot be enumerated *)

Lemma getMAC_no_networks env addr skip :
  fst (getMACAddrByIPinNetwork (withNetworks env (inl [])) addr skip) = [].
Proof.
  unfold getMACAddrByIPinNetwork. now destruct (isNil addr).
Qed.

Lemma implDeleteManual_no_matches env ip s :
  (forall a, fst (getMACAddrByIPinNetwork env a ip) = []) ->
  implDeleteManual env ip s
  = implDeleteManual (withNetworks env (inl [])) ip s.
Proof.
  intros Hm.
  unfold implDeleteManual, catchPanic, implDeleteManual_body.
  rewrite !bind_getLastDNS. cbv zeta.
  rewrite Hm, getMAC_no_networks. reflexivity.
Qed.

Lemma implSetManual_no_matches env addr ip s :
  (forall a i, fst (getMACAddrByIPinNetwork env a i) = []) ->
  implSetManual env addr ip s
  = implSetManual (withNetworks env (inl [])) addr ip s.
Proof.
  intros Hm.
  unfold implSetManual, catchPanic, implSetManual_body.
  rewrite !bind_getLastDNS. cbv zeta.
  destruct (Equal addr (_lastDNS s)); [reflexivity|].
  rewrite Hm, getMAC_no_networks.
  destruct (isNil (_lastDNS s)); cbn [negb]; [reflexivity|].
  unfold bind; cbv beta.
  rewrite (implDeleteManual_no_matches env None s (fun a => Hm a None)).
  reflexivity.
Qed.

Lemma implDeleteManual_enumeration_failed env err s :
  GetAllLocalV4Addresses env = inr err ->
  implDeleteManual env None s = (None, s).
Proof.
  intros He.
  destruct (implDeleteManual_cases env None s) as [[_ H]|[Hn _]]; [assumption|].
  rewrite (getMAC_enumeration_failed _ _ _ _ He) in Hn. discriminate.
Qed.

(** C10.  When the interfaces cannot be enumerated, [implSetManual] and
    [implDeleteManual] behave as on a host with no interface at all: the
    error of the enumeration plays no part in the result.  Without a
    tunnel address both return no error and leave the state, the record
    of helper calls included, unchanged. *)
Theorem enumeration_error_not_surfaced (env : Env) (err : error) :
  GetAllLocalV4Addresses env = inr err ->
  (forall addr localInterfaceIP s,
     implSetManual env addr localInterfaceIP s
     = implSetManual (withNetworks env (inl [])) addr localInterfaceIP s)
  /\ (forall localInterfaceIP s,
     implDeleteManual env localInterfaceIP s
     = implDeleteManual (withNetworks env (inl [])) localInterfaceIP s)
  /\ (forall addr s, implSetManual env addr None s = (None, s))
  /\ (forall s, implDeleteManual env None s = (None, s)).
Proof.
  intros He.
  assert (Hm : forall a i, fst (getMACAddrByIPinNetwork env a i) = []).
  { intros a i. exact (getMAC_enumeration_failed env a i err He). }
  split; [|split; [|split]].
  - intros addr ip s. now apply implSetManual_no_matches.
  - intros ip s. apply implDeleteManual_no_matches. intros a. apply Hm.
  - intros addr s.
    pose proof (implDeleteManual_enumeration_failed env err s He) as Hdel.
    destruct (implSetManual_cases env addr None s)
      as [[_ H]|(_ & [(e & sd & _ & Hd & _)|(sd & Hsd & Hset)])].
    + assumption.
    + congruence.
    + assert (sd = s) by (destruct Hsd as [[_ ?]|[_ ?]]; congruence). subst sd.
      destruct Hset as [[_ H]|[Hn _]]; [assumption|].
      rewrite Hm in Hn. discriminate.
  - intros s. now apply implDeleteManual_enumeration_failed with (err := err).
Qed.

Lemma enumeration_error_not_surfaced_witness :
  implSetManual hostNoEnumeration dns_10_0_0_1 None (tracking dns_8_8_8_8)
    = (None, tracking dns_8_8_8_8)
  /\ implDeleteManual hostNoEnumeration None (tracking dns_8_8_8_8)
    = (None, tracking dns_8_8_8_8).
Proof.
  destruct (enumeration_error_not_surfaced hostNoEnumeration
              (ErrorsNew "route ip+net: no such network interface") eq_refl)
    as (_ & _ & Hset & Hdel).
  split; [apply Hset|apply Hdel].
Defined.

(** ** The call order on the host with one LAN interface *)

Lemma lanHost_matches k h :
  getMACAddrByIPinNetwork (lanHost k h) dns_10_0_0_1 tunnel_10_5_0_2
  = ([lanMAC], None).
Proof.
  unfold getMACAddrByIPinNetwork, lanHost. cbn.
  unfold lanInterfaceByIPAddr. cbn.
  rewrite ?Z.land_0_r, ?Z.eqb_refl. reflexivity.
Qed.

(** C7.  With nothing tracked, on the host with the tunnel interface
    10.5.0.2 and one LAN interface aa:bb:cc:dd:ee:ff in 10.0.0.0/24,
    [implSetManual 10.0.0.1 10.5.0.2] calls the helper for the tunnel
    address with [OperationSet] and then, if that succeeded, for the
    hardware address with [OperationAdd], and nothing else; 10.0.0.1 is
    tracked exactly when both calls succeeded. *)
Theorem implSetManual_call_order (k : byte)
    (h : list NativeCall -> NativeCall -> CallOutcome) (history : list NativeCall) :
  let setTunnel := SetDNSByLocalIP tunnel_10_5_0_2 (StringOf dns_10_0_0_1) OperationSet in
  let addLan := SetDNSByMAC lanMAC (StringOf dns_10_0_0_1) OperationAdd in
  let r := implSetManual (lanHost k h) dns_10_0_0_1 tunnel_10_5_0_2
             {| _lastDNS := None; calls := history |} in
  if succeeded (h history setTunnel) then
    if succeeded (h (history ++ [setTunnel]) addLan) then
      r = (None, {| _lastDNS := dns_10_0_0_1;
                    calls := history ++ [setTunnel; addLan] |})
    else
      (exists e, fst r = Some e)
      /\ snd r = {| _lastDNS := None; calls := history ++ [setTunnel; addLan] |}
  else
    (exists e, fst r = Some e)
    /\ snd r = {| _lastDNS := None; calls := history ++ [setTunnel] |}.
Proof.
  intros setTunnel addLan r. subst r.
  unfold implSetManual, catchPanic, implSetManual_body.
  rewrite bind_getLastDNS. cbn [_lastDNS].
  change (Equal dns_10_0_0_1 None) with false. cbv iota zeta.
  rewrite lanHost_matches.
  cbn [fst isNil negb andb length Nat.leb Nat.ltb tunnel_10_5_0_2 IPv4 range].
  unfold bind, continue, return_, setLastDNS, fSetDNSByLocalIP, fSetDNSByMAC, Call.
  cbn [helper lanHost calls _lastDNS].
  change (dnsStringOf dns_10_0_0_1) with (StringOf dns_10_0_0_1).
  fold tunnel_10_5_0_2. fold setTunnel. fold addLan.
  unfold succeeded.
  destruct (h history setTunnel) as [retval errno|r];
    [destruct (checkDefaultAPIResp retval errno) as [e|]|].
  - cbn. eauto.
  - cbn [calls _lastDNS].
    destruct (h (history ++ [setTunnel]) addLan) as [retval' errno'|r];
      [destruct (checkDefaultAPIResp retval' errno') as [e|]|];
      cbn [calls fst snd]; rewrite <- ?app_assoc; cbn [app].
    + eauto.
    + reflexivity.
    + destruct r; cbn [fst snd]; eauto.
  - destruct r; cbn; eauto.
Qed.

End DnsSpec.

(* ===================================================================== *)
(** * Properties of the tunnel lifecycle controller                       *)
(* ===================================================================== *)

Module WireGuardSpec.
Import Net WireGuard WireGuardScenarios.

Example untilPaused_run :
  exists s, run untilPaused start = Some s
    /\ pc s = AtReceive /\ running s = true /\ paused s = true
    /\ mailbox s = Some (make 1).
Proof. eexists. split; [reflexivity|]. repeat split. Qed.

Example disconnectThenPause_run :
  exists s, run disconnectThenPause start = Some s
    /\ pc s = NotConnecting /\ running s = false /\ paused s = true.
Proof. eexists. split; [reflexivity|]. repeat split. Qed.

(** If a resume signal is pending when [disconnect] is called, the
    disconnect signal is dropped and [connect] starts the backend a
    second time: the channel has to be empty for [disconnect] to end a
    paused [connect]. *)
Example disconnectWithPendingResume_run :
  exists s, run disconnectWithPendingResume start = Some s
    /\ pc s = AtSetDNS
    /\ length (filter isExecUp (trace s)) = 2%nat.
Proof.
  exists (theSystem (run disconnectWithPendingResume start)).
  split; [vm_compute; reflexivity|]. split; vm_compute; reflexivity.
Qed.

(** ** Runs *)

Lemma run_app (a b : list Action) (s : System) :
  run (a ++ b) s = match run a s with
                   | Some s' => run b s'
                   | None => None
                   end.
Proof.
  revert s. induction a as [|x a IH]; intros s; cbn [app run]; [reflexivity|].
  destruct (step x s); [apply IH|reflexivity].
Qed.

Lemma run_invariant (P : System -> Prop) :
  (forall a s s', step a s = Some s' -> P s -> P s') ->
  forall actions s s', P s -> run actions s = Some s' -> P s'.
Proof.
  intros Hstep actions.
  induction actions as [|a rest IH]; intros s s' HP Hrun; cbn [run] in Hrun.
  - now injection Hrun as <-.
  - destruct (step a s) as [s1|] eqn:Hs; [|discriminate].
    eapply IH; [|exact Hrun]. eapply Hstep; eassumption.
Qed.

(** Case analysis of one step: every enabled transition, with the
    state after it made explicit. *)
Ltac step_cases H :=
  unfold step, connectEnter, connectStep, method, pause, disconnect, resume,
    setManualDNS, resetManualDNS, internalDisconnect, isPaused', goto in H;
  cbn -[trySend receive] in H;
  repeat match type of H with
         | context [match ?x with _ => _ end] =>
             destruct x eqn:?; cbn -[trySend receive] in H
         end;
  try discriminate H;
  injection H as <-.

Ltac destruct_system s :=
  let w := fresh "w" in
  let i := fresh "i" in
  destruct s as [w ? ?]; destruct w as [? ? ? i]; destruct i as [? ? ? ?].

(** ** The control channel *)

Lemma trySend_bounded ch v :
  match ch with
  | None => True
  | Some c => capacity c = 1%nat /\ (length (buffer c) <= 1)%nat
  end ->
  match trySend ch v with
  | None => True
  | Some c => capacity c = 1%nat /\ (length (buffer c) <= 1)%nat
  end.
Proof.
  destruct ch as [c|]; cbn [trySend]; [|trivial].
  intros [Hc Hl].
  destruct (Nat.ltb_spec (length (buffer c)) (capacity c)); cbn [capacity buffer].
  - split; [assumption|]. rewrite length_app. cbn [length]. lia.
  - split; assumption.
Qed.

Lemma trySend_full c pending v :
  capacity c = 1%nat -> buffer c = [pending] -> trySend (Some c) v = Some c.
Proof.
  intros Hc Hb. cbn [trySend]. now rewrite Hc, Hb.
Qed.

Lemma receive_bounded ch v ch' :
  receive ch = Some (v, ch') ->
  match ch with
  | None => True
  | Some c => capacity c = 1%nat /\ (length (buffer c) <= 1)%nat
  end ->
  match ch' with
  | None => True
  | Some c => capacity c = 1%nat /\ (length (buffer c) <= 1)%nat
  end.
Proof.
  destruct ch as [c|]; cbn [receive]; [|discriminate].
  destruct (buffer c) as [|x rest] eqn:Hb; [discriminate|].
  intros H [Hc Hl]. injection H as _ <-. cbn [capacity buffer length] in *.
  split; [assumption|lia].
Qed.

Lemma step_mailboxBounded a s s' :
  step a s = Some s' -> mailboxBounded s -> mailboxBounded s'.
Proof.
  unfold mailboxBounded, mailbox.
  destruct_system s.
  intros Hs Hb. cbn in Hb.
  destruct a; step_cases Hs; cbn -[trySend receive];
    repeat apply trySend_bounded; try assumption.
  - split; [reflexivity|lia].
  - eapply receive_bounded; eassumption.
  - eapply receive_bounded; eassumption.
Qed.

Lemma reachable_mailboxBounded s : reachable s -> mailboxBounded s.
Proof.
  intros (binary & config & ps & actions & Hrun).
  eapply (run_invariant mailboxBounded); [|  |exact Hrun].
  - intros a s0 s1 Hs Hb. eapply step_mailboxBounded; eassumption.
  - exact I.
Qed.

Example mailbox_keeps_first :
  receive (trySend (trySend (Some (make 1)) Op.disconnect) Op.resume)
  = Some (Op.disconnect, Some (make 1)).
Proof. reflexivity. Qed.

(** C3, as stated, fails: of two signals sent without a receive in
    between, the receiver gets the first one, not the most recent. *)
Lemma mailbox_latest_wins_counterexample :
  ~ (forall v1 v2, exists ch,
       receive (trySend (trySend (Some (make 1)) v1) v2) = Some (v2, ch)).
Proof.
  intros H. destruct (H Op.disconnect Op.resume) as [ch Hch].
  rewrite mailbox_keeps_first in Hch. discriminate Hch.
Qed.

(** C3, amended.  In every reachable state the control channel has
    capacity one and holds at most one signal; a signal sent while
    another is pending is dropped, the channel is left as it was, and
    the receiver gets the pending (earlier) signal. *)
Theorem mailbox_keeps_pending (s : System) (c : chan) (v : Op.operation) :
  reachable s ->
  mailbox s = Some c ->
  capacity c = 1%nat
  /\ (length (buffer c) <= 1)%nat
  /\ (forall pending, buffer c = [pending] ->
        trySend (Some c) v = Some c
        /\ receive (trySend (Some c) v)
           = Some (pending, Some {| capacity := 1; buffer := [] |})).
Proof.
  intros Hr Hm.
  pose proof (reachable_mailboxBounded s Hr) as Hb.
  unfold mailboxBounded in Hb. rewrite Hm in Hb. destruct Hb as [Hc Hl].
  split; [assumption|]. split; [assumption|].
  intros pending Hp.
  rewrite (trySend_full c pending v Hc Hp).
  split; [reflexivity|].
  cbn [receive]. now rewrite Hp, Hc.
Qed.

Lemma mailbox_keeps_pending_witness :
  capacity {| capacity := 1; buffer := [Op.disconnect] |} = 1%nat
  /\ (length (buffer {| capacity := 1; buffer := [Op.disconnect] |}) <= 1)%nat
  /\ (forall pending,
        buffer {| capacity := 1; buffer := [Op.disconnect] |} = [pending] ->
        trySend (Some {| capacity := 1; buffer := [Op.disconnect] |}) Op.resume
        = Some {| capacity := 1; buffer := [Op.disconnect] |}
        /\ receive (trySend (Some {| capacity := 1; buffer := [Op.disconnect] |})
                      Op.resume)
           = Some (pending, Some {| capacity := 1; buffer := [] |})).
Proof.
  apply (mailbox_keeps_pending (theSystem (run disconnectRequested start))
           {| capacity := 1; buffer := [Op.disconnect] |} Op.resume).
  - exists "/usr/bin/wg-quick"%string, "/tmp/wgivpn.conf"%string, params,
      disconnectRequested.
    reflexivity.
  - reflexivity.
Defined.

(** ** The running and paused flags *)




(** ** The DNS calls of [connect] *)

(** C4, as stated, fails: [connect] hands the DNS controller no tunnel
    address; on the tunnel 10.5.0.2 the call made after the backend has
    started is [dns.SetManual(10.5.0.1, nil)]. *)
Lemma connect_dns_tunnel_address_counterexample :
  ~ (forall s r s',
       pc s = AtSetDNS ->
       step (ConnectStep r) s = Some s' ->
       trace s' = trace s ++ [DnsSetManual (dnsIP (wg s))
                                (clientLocalIP (connectParams (wg s)))]).
Proof.
  intros H.
  specialize (H (theSystem (run untilBackendUp start)) None _ eq_refl eq_refl).
  discriminate H.
Qed.

(** C4, amended.  In every iteration of the loop of [connect], a
    successful start of the backend is followed by [dns.SetManual] with
    the manual DNS address if one is set and the gateway address of the
    tunnel otherwise, and with no tunnel address (nil); the restoration
    that ends the iteration is [dns.DeleteManual] with no tunnel address
    either. *)
Theorem connect_dns_calls (s s' : System) (r : option error) :
  step (ConnectStep r) s = Some s' ->
  (pc s = AtExecUp -> r = None -> pc s' = AtSetDNS)
  /\ (pc s = AtSetDNS ->
      trace s' = trace s ++
        [DnsSetManual (match manualDNS (internals (wg s)) with
                       | Some m => Some m
                       | None => hostLocalIP (connectParams (wg s))
                       end) None]
      /\ (r = None -> pc s' = AtNotify)
      /\ (forall e, r = Some e -> exists e', pc s' = AtRestoreDNS (Some e')))
  /\ (pc s = AtWaitInterface -> pc s' = AtRestoreDNS None)
  /\ (forall e, pc s = AtRestoreDNS e ->
      trace s' = trace s ++ [DnsDeleteManual None]).
Proof.
  destruct_system s. intros Hs.
  step_cases Hs; cbn; repeat split; intros; subst;
    try discriminate; try reflexivity; eauto;
    unfold dnsIP; cbn; now destruct manualDNS0.
Qed.

Lemma connect_dns_calls_witness :
  trace (theSystem (run (untilBackendUp ++ [ConnectStep None]) start))
  = trace (theSystem (run untilBackendUp start))
    ++ [DnsSetManual (IPv4 10 5 0 1) None].
Proof.
  destruct (connect_dns_calls (theSystem (run untilBackendUp start))
              (theSystem (run (untilBackendUp ++ [ConnectStep None]) start))
              None eq_refl) as (_ & Hset & _).
  exact (proj1 (Hset eq_refl)).
Defined.

(** ** Disconnecting a paused tunnel *)

Lemma step_leaving a s s' :
  isCallConnect a = false ->
  step a s = Some s' ->
  leaving s ->
  leaving s'
  /\ exists evs, trace s' = trace s ++ evs /\ existsb isExecUp evs = false.
Proof.
  unfold leaving, mailbox. destruct_system s.
  intros Ha Hs Hl. cbn in Hl.
  destruct Hl as [[-> ->]|[->| ->]];
    (destruct a; [discriminate Ha|..]); step_cases Hs; cbn;
    (split; [auto|eexists; split; [try reflexivity|]]);
    try (rewrite app_nil_r; reflexivity); try reflexivity.
  match goal with
  | H : receive _ = Some _ |- _ => cbn in H; injection H as <- <-
  end.
  discriminate.
Qed.

Lemma run_leaving actions s s' :
  forallb (fun a => negb (isCallConnect a)) actions = true ->
  run actions s = Some s' ->
  leaving s ->
  leaving s'
  /\ exists evs, trace s' = trace s ++ evs /\ existsb isExecUp evs = false.
Proof.
  revert s.
  induction actions as [|a rest IH]; intros s Hn Hrun Hl; cbn [run] in Hrun.
  - injection Hrun as <-. split; [assumption|].
    exists []. now rewrite app_nil_r.
  - cbn [forallb] in Hn. apply andb_true_iff in Hn as [Ha Hn].
    apply negb_true_iff in Ha.
    destruct (step a s) as [s1|] eqn:Hs; [|discriminate].
    destruct (step_leaving a s s1 Ha Hs Hl) as (Hl1 & evs1 & Ht1 & He1).
    destruct (IH s1 Hn Hrun Hl1) as (Hl' & evs & Ht & He).
    split; [assumption|].
    exists (evs1 ++ evs). split.
    + now rewrite Ht, Ht1, app_assoc.
    + rewrite existsb_app, He1, He. reflexivity.
Qed.

Lemma leaving_progress s r :
  leaving s ->
  pc s = NotConnecting
  \/ exists s', step (ConnectStep r) s = Some s'
       /\ (pc s' = AtExit None \/ pc s' = NotConnecting).
Proof.
  unfold leaving, mailbox. destruct_system s. cbn.
  intros [[-> ->]|[->| ->]]; [right|right|left; reflexivity];
    eexists; (split; [reflexivity|]); cbn; auto.
Qed.



End WireGuardSpec.

(* ===================================================================== *)
(** * Further properties of the DNS controller                            *)
(* ===================================================================== *)

Module DnsExtra.
Import Net Dns DnsScenarios DnsPlans DnsSpec.
Local Open Scope go_scope.

(** ** Plans *)

Lemma attempted_all h history plan :
  allSucceed h history plan = true -> attempted h history plan = plan.
Proof.
  revert history. induction plan as [|c rest IH]; intros history H; cbn in *.
  - reflexivity.
  - apply andb_true_iff in H as [Hc Hr]. rewrite Hc. f_equal. now apply IH.
Qed.

Lemma attempted_app h history p1 p2 :
  attempted h history (p1 ++ p2)
  = if allSucceed h history p1
    then p1 ++ attempted h (history ++ p1) p2
    else attempted h history p1.
Proof.
  revert history. induction p1 as [|c rest IH]; intros history; cbn.
  - now rewrite app_nil_r.
  - destruct (succeeded (h history c)); cbn; [|reflexivity].
    rewrite IH, <- app_assoc. cbn.
    now destruct (allSucceed h (history ++ [c]) rest).
Qed.

Lemma allSucceed_app h history p1 p2 :
  allSucceed h history (p1 ++ p2)
  = allSucceed h history p1 && allSucceed h (history ++ p1) p2.
Proof.
  revert history. induction p1 as [|c rest IH]; intros history; cbn.
  - now rewrite app_nil_r.
  - rewrite IH, <- app_assoc. cbn. now rewrite andb_assoc.
Qed.

Lemma attempted_prefix h history plan :
  exists notMade, plan = attempted h history plan ++ notMade.
Proof.
  revert history. induction plan as [|c rest IH]; intros history; cbn.
  - now exists [].
  - destruct (succeeded (h history c)).
    + destruct (IH (history ++ [c])) as [n Hn]. exists n. cbn. now f_equal.
    + now exists rest.
Qed.

(** ** Statements that carry out a plan *)

Lemma carriesOut_continue env s : carriesOut env (continue tt) [] s.
Proof.
  unfold carriesOut. cbn. rewrite app_nil_r. repeat split.
Qed.

Lemma carriesOut_checked env c (wrap : error -> error) s :
  carriesOut env
    (err <- Call env c ;;
     match err with
     | Some e => return_ (Some (wrap e))
     | None => continue tt
     end) [c] s.
Proof.
  unfold carriesOut, bind, Call. cbn [attempted allSucceed].
  unfold succeeded.
  destruct (helper env (calls s) c) as [retval errno|r].
  - destruct (checkDefaultAPIResp retval errno) as [e|]; cbn;
      repeat split; eauto.
  - cbn. repeat split; eauto.
Qed.

Lemma carriesOut_bind env (c : M unit) (k : unit -> M unit) p1 p2 s :
  carriesOut env c p1 s ->
  (forall s1, _lastDNS s1 = _lastDNS s -> calls s1 = calls s ++ p1 ->
     carriesOut env (k tt) p2 s1) ->
  carriesOut env (bind c k) (p1 ++ p2) s.
Proof.
  unfold carriesOut at 1 3. intros (Hc & Hl & Hf) Hk.
  rewrite attempted_app, allSucceed_app. unfold bind.
  destruct (allSucceed (helper env) (calls s) p1) eqn:H1.
  - rewrite (attempted_all _ _ _ H1) in Hc.
    destruct (c s) as [f s1]. cbn [fst snd] in *. subst f.
    destruct (Hk s1 Hl Hc) as (Hc2 & Hl2 & Hf2).
    rewrite app_assoc, <- Hc.
    cbn [andb]. split; [assumption|]. split; [congruence|assumption].
  - destruct (c s) as [f s1]. cbn [fst snd andb] in *.
    destruct Hf as [[e ->]|[r ->]]; cbn [fst snd]; repeat split; eauto.
Qed.

Lemma carriesOut_range {A} env (l : list A) (body : A -> M unit)
    (f : A -> NativeCall) s :
  (forall x s1, _lastDNS s1 = _lastDNS s -> carriesOut env (body x) [f x] s1) ->
  carriesOut env (range l body) (map f l) s.
Proof.
  intros Hb. revert s Hb.
  induction l as [|x l IH]; intros s Hb; cbn [range map].
  - apply carriesOut_continue.
  - change (f x :: map f l) with ([f x] ++ map f l).
    apply carriesOut_bind; [now apply Hb|].
    intros s1 Hl _. apply IH. intros y s2 Hl2. apply Hb. congruence.
Qed.

Lemma bind_assoc {A B C} (c : M A) (k : A -> M B) (k' : B -> M C) s :
  bind c (fun a => bind (k a) k') s = bind (bind c k) k' s.
Proof.
  unfold bind. destruct (c s) as [[a|e|r] s1]; reflexivity.
Qed.

(** What a statement that carries out a plan, followed by [k], does. *)
Lemma carriesOut_then {C} env (c : M unit) (k : unit -> M C) plan s :
  carriesOut env c plan s ->
  exists s1,
    calls s1 = calls s ++ attempted (helper env) (calls s) plan
    /\ _lastDNS s1 = _lastDNS s
    /\ (if allSucceed (helper env) (calls s) plan
        then bind c k s = k tt s1
        else (exists e, bind c k s = (Return (Some e), s1))
             \/ (exists r, bind c k s = (Panic r, s1))).
Proof.
  unfold carriesOut, bind. intros (Hc & Hl & Hf).
  destruct (c s) as [f s1]. cbn [fst snd] in *.
  exists s1. split; [assumption|]. split; [assumption|].
  destruct (allSucceed (helper env) (calls s) plan).
  - now subst f.
  - destruct Hf as [[e ->]|[r ->]]; eauto.
Qed.

Lemma carriesOut_then2 {C} env (a b : M unit) (k : unit -> M C) pa pb s :
  carriesOut env a pa s ->
  (forall s1, _lastDNS s1 = _lastDNS s -> calls s1 = calls s ++ pa ->
     carriesOut env b pb s1) ->
  exists s1,
    calls s1 = calls s ++ attempted (helper env) (calls s) (pa ++ pb)
    /\ _lastDNS s1 = _lastDNS s
    /\ (if allSucceed (helper env) (calls s) (pa ++ pb)
        then bind a (fun _ => bind b k) s = k tt s1
        else (exists e, bind a (fun _ => bind b k) s = (Return (Some e), s1))
             \/ (exists r, bind a (fun _ => bind b k) s = (Panic r, s1))).
Proof.
  intros Ha Hb. rewrite bind_assoc.
  apply carriesOut_then. now apply carriesOut_bind.
Qed.

Lemma nothingToDo_true ip (macs : list HardwareAddr) :
  nothingToDo ip macs = true -> isNil ip = true /\ macs = [].
Proof.
  unfold nothingToDo. intros H. apply andb_true_iff in H as [Hi Hm].
  split; [assumption|]. destruct macs; [reflexivity|discriminate].
Qed.

Lemma nothingToDo_false_plan ip (macs : list HardwareAddr) (a : NativeCall)
    (f : HardwareAddr -> NativeCall) :
  nothingToDo ip macs = false ->
  (if isNil ip then [] else [a]) ++ map f macs <> [].
Proof.
  unfold nothingToDo. intros H.
  destruct (isNil ip); [|discriminate].
  destruct macs; [discriminate H|discriminate].
Qed.

(** The two helper stages of [implDeleteManual]. *)
Lemma delete_tunnel_stage env ip s :
  carriesOut env
    (if negb (isNil ip) then
       err <- fSetDNSByLocalIP env ip IPv4zero OperationSet ;;
       match err with
       | Some e => return_ (Some (Errorf "failed to reset DNS for local interface" e))
       | None => continue tt
       end
     else continue tt)
    (if isNil ip then []
     else [SetDNSByLocalIP ip (dnsStringOf IPv4zero) OperationSet]) s.
Proof.
  destruct (isNil ip); cbn [negb].
  - apply carriesOut_continue.
  - apply carriesOut_checked.
Qed.

Lemma delete_interfaces_stage env (macs : list HardwareAddr) d s :
  _lastDNS s = d ->
  carriesOut env
    (if (0 <? length macs)%nat then
       range macs (fun mac =>
         lastDNS' <- getLastDNS ;;
         err <- fSetDNSByMAC env mac lastDNS' OperationDel ;;
         match err with
         | Some e => return_ (Some (Errorf "failed to reset DNS for interface by MAC" e))
         | None => continue tt
         end)
     else continue tt)
    (map (fun mac => SetDNSByMAC mac (dnsStringOf d) OperationDel) macs) s.
Proof.
  intros Hd.
  destruct macs as [|m macs]; [apply carriesOut_continue|].
  change (0 <? length (m :: macs))%nat with true. cbv iota.
  apply carriesOut_range. intros x s1 Hl.
  assert (Hx : carriesOut env
    (err <- fSetDNSByMAC env x (_lastDNS s1) OperationDel ;;
     match err with
     | Some e => return_ (Some (Errorf "failed to reset DNS for interface by MAC" e))
     | None => continue tt
     end) [SetDNSByMAC x (dnsStringOf d) OperationDel] s1).
  { rewrite Hl, Hd. apply carriesOut_checked. }
  exact Hx.
Qed.

Lemma delete_runs_plan (env : Env) (localInterfaceIP : IP) (s : State) :
  calls (snd (implDeleteManual env localInterfaceIP s))
  = calls s ++ attempted (helper env) (calls s)
                 (deletePlan env (_lastDNS s) localInterfaceIP)
  /\ (fst (implDeleteManual env localInterfaceIP s) = None <->
      allSucceed (helper env) (calls s)
        (deletePlan env (_lastDNS s) localInterfaceIP) = true)
  /\ _lastDNS (snd (implDeleteManual env localInterfaceIP s))
     = match deletePlan env (_lastDNS s) localInterfaceIP with
       | [] => _lastDNS s
       | _ :: _ =>
           if allSucceed (helper env) (calls s)
                (deletePlan env (_lastDNS s) localInterfaceIP)
           then None else _lastDNS s
       end.
Proof.
  unfold implDeleteManual, catchPanic, implDeleteManual_body, deletePlan.
  rewrite bind_getLastDNS. cbv zeta.
  set (macs := fst (getMACAddrByIPinNetwork env (_lastDNS s) localInterfaceIP)).
  fold (nothingToDo localInterfaceIP macs).
  destruct (nothingToDo localInterfaceIP macs) eqn:Hn.
  - apply nothingToDo_true in Hn as [-> ->]. cbn.
    rewrite app_nil_r. repeat split.
  - pose proof (nothingToDo_false_plan localInterfaceIP macs
      (SetDNSByLocalIP localInterfaceIP (dnsStringOf IPv4zero) OperationSet)
      (fun mac => SetDNSByMAC mac (dnsStringOf (_lastDNS s)) OperationDel) Hn) as Hne.
    match goal with
    | |- context [bind ?a (fun _ => bind ?b ?k) s] =>
        destruct (carriesOut_then2 env a b k _ _ s
                    (delete_tunnel_stage env localInterfaceIP s)
                    (fun s1 Hl _ => delete_interfaces_stage env macs (_lastDNS s) s1 Hl))
          as (s1 & Hc & Hl & Hf)
    end.
    destruct ((if isNil localInterfaceIP then []
               else [SetDNSByLocalIP localInterfaceIP (dnsStringOf IPv4zero) OperationSet])
              ++ map (fun mac => SetDNSByMAC mac (dnsStringOf (_lastDNS s)) OperationDel) macs)
      as [|c0 plan] eqn:Hplan; [congruence|].
    destruct (allSucceed (helper env) (calls s) (c0 :: plan)).
    + rewrite Hf. cbn. repeat split; assumption.
    + destruct Hf as [[e ->]|[r ->]]; [|destruct r]; cbn [fst snd];
        (split; [assumption|]); (split; [split; discriminate|assumption]).
Qed.

(** The two helper stages of [implSetManual]. *)
Lemma set_tunnel_stage env addr ip s :
  carriesOut env
    (if negb (isNil ip) then
       err <- fSetDNSByLocalIP env ip addr OperationSet ;;
       match err with
       | Some e => return_ (Some (Errorf "failed to set DNS for local interface" e))
       | None => continue tt
       end
     else continue tt)
    (if isNil ip then []
     else [SetDNSByLocalIP ip (dnsStringOf addr) OperationSet]) s.
Proof.
  destruct (isNil ip); cbn [negb].
  - apply carriesOut_continue.
  - apply carriesOut_checked.
Qed.

Lemma set_interfaces_stage env (macs : list HardwareAddr) addr s :
  carriesOut env
    (if (0 <? length macs)%nat then
       range macs (fun mac =>
         err <- fSetDNSByMAC env mac addr OperationAdd ;;
         match err with
         | Some e => return_ (Some (Errorf "failed to set DNS for interface by MAC" e))
         | None => continue tt
         end)
     else continue tt)
    (map (fun mac => SetDNSByMAC mac (dnsStringOf addr) OperationAdd) macs) s.
Proof.
  destruct macs as [|m macs]; [apply carriesOut_continue|].
  change (0 <? length (m :: macs))%nat with true. cbv iota.
  apply carriesOut_range. intros x s1 _. apply carriesOut_checked.
Qed.

Lemma set_runs_plan (env : Env) (addr localInterfaceIP : IP) (s : State) :
  let r := implSetManual env addr localInterfaceIP s in
  let d := if isNil (_lastDNS s) then (None, s) else implDeleteManual env None s in
  let plan := setPlan env addr localInterfaceIP in
  if Equal addr (_lastDNS s) then r = (None, s)
  else
    match fst d with
    | Some e => r = (Some (Errorf "Failed to set DNS" e), snd d)
    | None =>
        calls (snd r)
        = calls (snd d) ++ attempted (helper env) (calls (snd d)) plan
        /\ (fst r = None <-> allSucceed (helper env) (calls (snd d)) plan = true)
        /\ _lastDNS (snd r)
           = match plan with
             | [] => _lastDNS (snd d)
             | _ :: _ =>
                 if allSucceed (helper env) (calls (snd d)) plan
                 then addr else _lastDNS (snd d)
             end
    end.
Proof.
  intros r d plan. subst r.
  unfold implSetManual, catchPanic, implSetManual_body.
  rewrite bind_getLastDNS.
  destruct (Equal addr (_lastDNS s)); [reflexivity|].
  cbv zeta.
  set (macs := fst (getMACAddrByIPinNetwork env addr localInterfaceIP)).
  fold (nothingToDo localInterfaceIP macs).
  match goal with
  | |- context [bind _ (fun _ => ?rest)] => set (K := rest)
  end.
  assert (HK : forall sd,
    calls (snd (catchPanic K sd))
    = calls sd ++ attempted (helper env) (calls sd) plan
    /\ (fst (catchPanic K sd) = None <-> allSucceed (helper env) (calls sd) plan = true)
    /\ _lastDNS (snd (catchPanic K sd))
       = match plan with
         | [] => _lastDNS sd
         | _ :: _ => if allSucceed (helper env) (calls sd) plan
                     then addr else _lastDNS sd
         end).
  { intros sd. subst K plan. unfold catchPanic, setPlan. fold macs.
    destruct (nothingToDo localInterfaceIP macs) eqn:Hn.
    - apply nothingToDo_true in Hn as [-> ->]. cbn.
      rewrite app_nil_r. repeat split.
    - pose proof (nothingToDo_false_plan localInterfaceIP macs
        (SetDNSByLocalIP localInterfaceIP (dnsStringOf addr) OperationSet)
        (fun mac => SetDNSByMAC mac (dnsStringOf addr) OperationAdd) Hn) as Hne.
      match goal with
      | |- context [bind ?a (fun _ => bind ?b ?k) sd] =>
          destruct (carriesOut_then2 env a b k _ _ sd
                      (set_tunnel_stage env addr localInterfaceIP sd)
                      (fun s1 _ _ => set_interfaces_stage env macs addr s1))
            as (s1 & Hc & Hl & Hf)
      end.
      destruct ((if isNil localInterfaceIP then []
                 else [SetDNSByLocalIP localInterfaceIP (dnsStringOf addr) OperationSet])
                ++ map (fun mac => SetDNSByMAC mac (dnsStringOf addr) OperationAdd) macs)
        as [|c0 rest] eqn:Hplan; [congruence|].
      destruct (allSucceed (helper env) (calls sd) (c0 :: rest)).
      + rewrite Hf. cbn. repeat split; assumption.
      + destruct Hf as [[e ->]|[r ->]]; [|destruct r]; cbn [fst snd];
          (split; [assumption|]); (split; [split; discriminate|assumption]). }
  clearbody K. unfold catchPanic in HK. subst d.
  destruct (isNil (_lastDNS s)); cbn [negb fst snd]; unfold bind, continue.
  - apply HK.
  - destruct (implDeleteManual env None s) as [[e|] sd]; cbn [fst snd].
    + reflexivity.
    + apply HK.
Qed.

(** X1.  [implDeleteManual] carries out its plan until the first helper
    call that does not succeed: the calls it makes are the attempted
    ones, an initial part of the plan, in order; it returns no error
    exactly when every call of the plan succeeds; and it clears the
    tracked value exactly when, in addition, the plan is not empty. *)
Theorem implDeleteManual_plan (env : Env) (localInterfaceIP : IP) (s : State) :
  calls (snd (implDeleteManual env localInterfaceIP s))
  = calls s ++ attempted (helper env) (calls s)
                 (deletePlan env (_lastDNS s) localInterfaceIP)
  /\ (fst (implDeleteManual env localInterfaceIP s) = None <->
      allSucceed (helper env) (calls s)
        (deletePlan env (_lastDNS s) localInterfaceIP) = true)
  /\ _lastDNS (snd (implDeleteManual env localInterfaceIP s))
     = match deletePlan env (_lastDNS s) localInterfaceIP with
       | [] => _lastDNS s
       | _ :: _ =>
           if allSucceed (helper env) (calls s)
                (deletePlan env (_lastDNS s) localInterfaceIP)
           then None else _lastDNS s
       end
  /\ exists notMade,
       deletePlan env (_lastDNS s) localInterfaceIP
       = attempted (helper env) (calls s)
           (deletePlan env (_lastDNS s) localInterfaceIP) ++ notMade.
Proof.
  destruct (delete_runs_plan env localInterfaceIP s) as (Hc & He & Hl).
  split; [exact Hc|]. split; [exact He|]. split; [exact Hl|].
  apply attempted_prefix.
Qed.

(** X2.  [implSetManual] does nothing when the address is the tracked
    one.  Otherwise it first removes a tracked value from the interfaces
    that are not the tunnel's, and gives up with that error if the
    removal fails; then it carries out its own plan until the first
    helper call that does not succeed (the calls made are an initial
    part of the plan), returns no error exactly when every call
    succeeds, and tracks the address exactly when, in addition, the plan
    is not empty. *)
Theorem implSetManual_plan (env : Env) (addr localInterfaceIP : IP) (s : State) :
  let r := implSetManual env addr localInterfaceIP s in
  let d := if isNil (_lastDNS s) then (None, s) else implDeleteManual env None s in
  let plan := setPlan env addr localInterfaceIP in
  if Equal addr (_lastDNS s) then r = (None, s)
  else
    match fst d with
    | Some e => r = (Some (Errorf "Failed to set DNS" e), snd d)
    | None =>
        calls (snd r)
        = calls (snd d) ++ attempted (helper env) (calls (snd d)) plan
        /\ (fst r = None <-> allSucceed (helper env) (calls (snd d)) plan = true)
        /\ _lastDNS (snd r)
           = match plan with
             | [] => _lastDNS (snd d)
             | _ :: _ =>
                 if allSucceed (helper env) (calls (snd d)) plan
                 then addr else _lastDNS (snd d)
             end
        /\ exists notMade,
             plan = attempted (helper env) (calls (snd d)) plan ++ notMade
    end.
Proof.
  intros r d plan.
  pose proof (set_runs_plan env addr localInterfaceIP s) as H.
  cbv zeta in H. fold r d plan in H.
  destruct (Equal addr (_lastDNS s)); [exact H|].
  destruct (fst d); [exact H|].
  destruct H as (Hc & He & Hl).
  split; [exact Hc|]. split; [exact He|]. split; [exact Hl|].
  apply attempted_prefix.
Qed.

(** ** Setting and then deleting *)

Lemma allSucceed_ok h history plan :
  (forall hist c, h hist c = Returned 0 0) -> allSucceed h history plan = true.
Proof.
  intros Hok. revert history.
  induction plan as [|c rest IH]; intros history; cbn; [reflexivity|].
  now rewrite Hok, IH.
Qed.

Lemma isNil_None (ip : IP) : isNil ip = true -> ip = None.
Proof. destruct ip; [discriminate|reflexivity]. Qed.

Lemma setPlan_nil env addr ip :
  setPlan env addr ip = [] ->
  ip = None /\ fst (getMACAddrByIPinNetwork env addr None) = [].
Proof.
  unfold setPlan. destruct ip as [l|]; cbn [isNil]; [discriminate|].
  cbn [app]. intros H. split; [reflexivity|].
  now destruct (fst (getMACAddrByIPinNetwork env addr None)).
Qed.

Lemma target_plans env addr ip :
  map target (deletePlan env addr ip) = map target (setPlan env addr ip).
Proof.
  unfold deletePlan, setPlan. rewrite !map_app, !map_map. cbn [target].
  now destruct (isNil ip).
Qed.

(** The state [implSetManual] starts its own plan from tracks the old
    value only if that value matches no interface. *)
Lemma after_removal_plan env s :
  (forall hist c, helper env hist c = Returned 0 0) ->
  deletePlan env
    (_lastDNS (snd (if isNil (_lastDNS s) then (None, s)
                    else implDeleteManual env None s))) None = [].
Proof.
  intros Hok.
  destruct (isNil (_lastDNS s)) eqn:Hnil; cbn [snd].
  - apply isNil_None in Hnil. rewrite Hnil. reflexivity.
  - destruct (delete_runs_plan env None s) as (_ & _ & Hl).
    rewrite Hl.
    destruct (deletePlan env (_lastDNS s) None) eqn:Hp; [assumption|].
    rewrite (allSucceed_ok _ _ _ Hok). reflexivity.
Qed.



(** ** Deleting again *)

(** X4.  After [implDeleteManual] has returned no error, a call
    without a tunnel address is a no-op: it returns no error, makes no
    helper call and leaves the tracked value as it is. *)
Theorem implDeleteManual_again (env : Env) (localInterfaceIP : IP) (s s1 : State) :
  implDeleteManual env localInterfaceIP s = (None, s1) ->
  implDeleteManual env None s1 = (None, s1).
Proof.
  intros H.
  destruct (implDeleteManual_cases env localInterfaceIP s)
    as [[Hn H1]|(_ & s' & _ & [H1|(e & H1)])].
  - apply nothingToDo_true in Hn as [Hi _]. apply isNil_None in Hi. subst.
    congruence.
  - assert (Hl : _lastDNS s1 = None).
    { rewrite H1 in H. injection H as <-. reflexivity. }
    destruct (implDeleteManual_cases env None s1) as [[_ H2]|[Hn _]];
      [assumption|].
    rewrite Hl in Hn. discriminate Hn.
  - congruence.
Qed.

Lemma implDeleteManual_again_witness :
  implDeleteManual (twoLanHost helperOk) None
    (snd (implDeleteManual (twoLanHost helperOk) tunnel_10_5_0_2
            (tracking dns_10_0_0_1)))
  = (None, snd (implDeleteManual (twoLanHost helperOk) tunnel_10_5_0_2
                  (tracking dns_10_0_0_1))).
Proof.
  apply (implDeleteManual_again (twoLanHost helperOk) tunnel_10_5_0_2
           (tracking dns_10_0_0_1)).
  vm_compute. reflexivity.
Defined.

(** ** No interface to set *)

(** X5.  Without a tunnel address and with no interface matching the
    address, [implSetManual] never tracks the address and makes no
    helper call of its own: it does nothing when nothing is tracked or
    the address is the tracked one, and otherwise does exactly what
    [implDeleteManual] without a tunnel address does, wrapping its
    error. *)
Theorem implSetManual_no_interface (env : Env) (addr : IP) (s : State) :
  fst (getMACAddrByIPinNetwork env addr None) = [] ->
  implSetManual env addr None s
  = if Equal addr (_lastDNS s) then (None, s)
    else if isNil (_lastDNS s) then (None, s)
    else match implDeleteManual env None s with
         | (Some e, s') => (Some (Errorf "Failed to set DNS" e), s')
         | (None, s') => (None, s')
         end.
Proof.
  intros Hm.
  destruct (implSetManual_cases env addr None s)
    as [[-> H]|(-> & [(e & sd & -> & Hdel & H)|(sd & Hsd & Hset)])].
  - assumption.
  - now rewrite Hdel.
  - rewrite Hm in Hset.
    destruct Hset as [[_ H]|[Hn _]]; [|discriminate Hn].
    destruct Hsd as [[-> ->]|[-> Hdel]]; [assumption|].
    now rewrite Hdel.
Qed.

Lemma implSetManual_no_interface_witness :
  implSetManual (lanHost 5 helperOk) dns_8_8_8_8 None (tracking None)
  = (None, tracking None).
Proof.
  exact (implSetManual_no_interface (lanHost 5 helperOk) dns_8_8_8_8
           (tracking None) eq_refl).
Defined.

(** ** What the resolver returns *)

(** X6.  When the interfaces can be enumerated, a hardware address is
    in the result of [getMACAddrByIPinNetwork] exactly when it is the
    (non-nil) hardware address of the interface of an enumerated network
    that contains the address and whose own address is not the one to
    skip. *)
Theorem getMACAddrByIPinNetwork_membership (env : Env) (addr localAddrToSkip : IP)
    (networks : list IPNet) (mac : HardwareAddr) :
  isNil addr = false ->
  GetAllLocalV4Addresses env = inl networks ->
  (In mac (fst (getMACAddrByIPinNetwork env addr localAddrToSkip)) <->
   exists network infs,
     In network networks
     /\ Equal (ipnIP network) localAddrToSkip = false
     /\ Contains network addr = true
     /\ InterfaceByIPAddr env (ipnIP network) = inl (Some infs)
     /\ ifHardwareAddr infs = mac
     /\ isNil mac = false).
Proof.
  intros Ha He. unfold getMACAddrByIPinNetwork. rewrite Ha, He. cbn [fst].
  rewrite matchNetworks_acc. cbn [app]. unfold matchingInterfaces.
  rewrite in_flat_map. split.
  - intros (n & Hin & Hmac). apply filter_In in Hin as [Hin Hf].
    apply andb_true_iff in Hf as [Hs Hc]. apply negb_true_iff in Hs.
    unfold resolveHardwareAddr in Hmac.
    destruct (InterfaceByIPAddr env (ipnIP n)) as [[infs|]|e] eqn:Hi;
      try contradiction.
    destruct (isNil (ifHardwareAddr infs)) eqn:Hnil; [contradiction|].
    destruct Hmac as [<-|[]].
    exists n, infs. repeat split; assumption.
  - intros (n & infs & Hin & Hs & Hc & Hi & <- & Hnil).
    exists n. split.
    + apply filter_In. split; [assumption|]. now rewrite Hs, Hc.
    + unfold resolveHardwareAddr. rewrite Hi, Hnil. now left.
Qed.

Lemma getMACAddrByIPinNetwork_membership_witness :
  In lanMAC (fst (getMACAddrByIPinNetwork lanHostUnresolved dns_10_0_0_1 tunnel_10_5_0_2)).
Proof.
  apply (getMACAddrByIPinNetwork_membership lanHostUnresolved dns_10_0_0_1
           tunnel_10_5_0_2 [tunnelNet; lanNet 9; lanNet 5] lanMAC eq_refl eq_refl).
  exists (lanNet 5), {| ifHardwareAddr := lanMAC |}.
  repeat split. right; right; left; reflexivity.
Defined.

End DnsExtra.

(* ===================================================================== *)
(** * Further properties of the tunnel lifecycle controller               *)
(* ===================================================================== *)

Module WireGuardExtra.
Import Net WireGuard WireGuardScenarios WireGuardInvariants WireGuardSpec.

Lemma reachable_invariant (P : System -> Prop) :
  (forall binary config ps, P (initial binary config ps)) ->
  (forall a s s', step a s = Some s' -> P s -> P s') ->
  forall s, reachable s -> P s.
Proof.
  intros Hinit Hstep s (binary & config & ps & actions & Hrun).
  eapply (run_invariant P); [exact Hstep|apply Hinit|exact Hrun].
Qed.

(** ** The running flag *)

Lemma step_runningWhileConnecting a s s' :
  step a s = Some s' -> runningWhileConnecting s -> runningWhileConnecting s'.
Proof.
  unfold runningWhileConnecting, running. destruct_system s.
  intros Hs Hr. cbn in Hr.
  destruct a; step_cases Hs; cbn -[trySend receive] in *;
    try assumption; try reflexivity; try discriminate.
Qed.

(** X7.  In every reachable state the running flag is set exactly while
    a call of [connect] is executing. *)
Theorem running_while_connecting (s : System) :
  reachable s -> (running s = true <-> pc s <> NotConnecting).
Proof.
  intros Hr.
  assert (H : runningWhileConnecting s).
  { apply reachable_invariant; [reflexivity| |assumption].
    intros a s0 s1. apply step_runningWhileConnecting. }
  unfold runningWhileConnecting in H. rewrite H.
  destruct (pc s); cbn; split; intros; congruence.
Qed.

Lemma running_while_connecting_witness :
  running (theSystem (run untilConnected start)) = true
  <-> pc (theSystem (run untilConnected start)) <> NotConnecting.
Proof.
  apply running_while_connecting.
  exists "/usr/bin/wg-quick"%string, "/tmp/wgivpn.conf"%string, params,
    untilConnected.
  reflexivity.
Defined.

(** ** Configuration writes and backend starts *)

Lemma step_startsBounded a s s' :
  step a s = Some s' -> startsBounded s -> startsBounded s'.
Proof.
  unfold startsBounded. destruct_system s.
  intros Hs Hb. cbn in Hb.
  destruct a; step_cases Hs; cbn -[trySend receive] in *;
    rewrite ?filter_app, ?length_app; cbn; lia.
Qed.

(** X8.  In every reachable state the backend has been started at most
    as many times as a configuration file has been written: [connect]
    never starts the backend without a fresh configuration. *)
Theorem starts_bounded_by_writes (s : System) :
  reachable s ->
  (length (filter isExecUp (trace s))
   <= length (filter isGenerateConfig (trace s)))%nat.
Proof.
  intros Hr.
  assert (H : startsBounded s).
  { apply reachable_invariant; [|exact step_startsBounded|assumption].
    intros. unfold startsBounded. cbn. lia. }
  unfold startsBounded in H. lia.
Qed.

Lemma starts_bounded_by_writes_witness :
  (length (filter isExecUp (trace (theSystem (run untilConnected start))))
   <= length (filter isGenerateConfig
                (trace (theSystem (run untilConnected start)))))%nat.
Proof.
  apply starts_bounded_by_writes.
  exists "/usr/bin/wg-quick"%string, "/tmp/wgivpn.conf"%string, params,
    untilConnected.
  reflexivity.
Defined.

(** ** Pause and resume *)

(** X9.  On a connected tunnel (at the wait for the interface, running,
    not paused, empty control channel), [pause], then [connect] reaching
    its receive, then [resume], make [connect] write the configuration
    and start the backend exactly once more: the backend is stopped, the
    DNS is restored, and [connect] is back at applying the DNS, running
    and not paused, without having returned. *)
Theorem pause_resume_round_trip (s : System) (r1 r2 r3 r4 r5 : option error) :
  pc s = AtWaitInterface ->
  running s = true ->
  paused s = false ->
  mailbox s = Some (make 1) ->
  exists s',
    run [CallPause r1; ConnectStep r2; ConnectStep r3; ConnectStep r4;
         CallResume; ConnectStep r5; ConnectStep None; ConnectStep None] s = Some s'
    /\ pc s' = AtSetDNS
    /\ running s' = true
    /\ paused s' = false
    /\ mailbox s' = Some (make 1)
    /\ trace s' = trace s ++
         [ExecDown (binaryPath (wg s)) (configFilePath (wg s));
          DnsDeleteManual None;
          GenerateAndSaveConfigFile (configFilePath (wg s));
          ExecUp (binaryPath (wg s)) (configFilePath (wg s))].
Proof.
  unfold running, paused, mailbox. destruct_system s. cbn.
  intros -> -> -> ->.
  eexists. split; [reflexivity|]. cbn.
  repeat split. rewrite ?app_nil_r, <- ?app_assoc. reflexivity.
Qed.

Lemma pause_resume_round_trip_witness :
  exists s',
    run [CallPause None; ConnectStep None; ConnectStep None; ConnectStep None;
         CallResume; ConnectStep None; ConnectStep None; ConnectStep None]
      (theSystem (run untilConnected start)) = Some s'
    /\ pc s' = AtSetDNS.
Proof.
  destruct (pause_resume_round_trip (theSystem (run untilConnected start))
              None None None None None eq_refl eq_refl eq_refl eq_refl)
    as (s' & Hrun & Hpc & _).
  exists s'. split; assumption.
Defined.

(** X10.  If [resume] follows [pause] before [connect] has looked at
    the paused flag, the tunnel is not resumed: [connect], woken by the
    stop of the backend, finds the flag cleared, leaves its loop and
    returns no error, and the backend is not started again. *)
Theorem resume_before_connect_blocks (s : System) (r1 r2 r3 r4 r5 : option error) :
  pc s = AtWaitInterface ->
  running s = true ->
  paused s = false ->
  mailbox s = Some (make 1) ->
  exists s',
    run [CallPause r1; CallResume;
         ConnectStep r2; ConnectStep r3; ConnectStep r4; ConnectStep r5] s = Some s'
    /\ pc s' = NotConnecting
    /\ running s' = false
    /\ trace s' = trace s ++
         [ExecDown (binaryPath (wg s)) (configFilePath (wg s));
          DnsDeleteManual None;
          RemoveConfigFile (configFilePath (wg s));
          ConnectReturned None].
Proof.
  unfold running, paused, mailbox. destruct_system s. cbn.
  intros -> -> -> ->.
  eexists. split; [reflexivity|]. cbn.
  repeat split. rewrite ?app_nil_r, <- ?app_assoc. reflexivity.
Qed.

Lemma resume_before_connect_blocks_witness :
  exists s',
    run [CallPause None; CallResume;
         ConnectStep None; ConnectStep None; ConnectStep None; ConnectStep None]
      (theSystem (run untilConnected start)) = Some s'
    /\ pc s' = NotConnecting
    /\ running s' = false.
Proof.
  destruct (resume_before_connect_blocks (theSystem (run untilConnected start))
              None None None None None eq_refl eq_refl eq_refl eq_refl)
    as (s' & Hrun & Hpc & Hr & _).
  exists s'. repeat split; assumption.
Defined.

(** ** Failures of [connect] *)

(** X11.  When [dns.SetManual] fails, [connect] still calls
    [dns.DeleteManual], removes the configuration file, clears the
    running flag and returns the wrapped error; no connected state is
    reported. *)
Theorem connect_dns_failure_restores (s : System) (e : error) (r2 r3 : option error) :
  pc s = AtSetDNS ->
  exists s',
    run [ConnectStep (Some e); ConnectStep r2; ConnectStep r3] s = Some s'
    /\ pc s' = NotConnecting
    /\ running s' = false
    /\ trace s' = trace s ++
         [DnsSetManual (dnsIP (wg s)) None;
          DnsDeleteManual None;
          RemoveConfigFile (configFilePath (wg s));
          ConnectReturned (Some (Errorf "failed to set DNS" e))].
Proof.
  destruct_system s. cbn. intros ->.
  eexists. split; [reflexivity|]. cbn.
  repeat split. rewrite <- ?app_assoc. reflexivity.
Qed.

Lemma connect_dns_failure_restores_witness :
  exists s',
    run [ConnectStep (Some (External "resolvconf failed")); ConnectStep None;
         ConnectStep None]
      (theSystem (run untilBackendUp start)) = Some s'
    /\ pc s' = NotConnecting
    /\ running s' = false.
Proof.
  destruct (connect_dns_failure_restores (theSystem (run untilBackendUp start))
              (External "resolvconf failed") None None eq_refl)
    as (s' & Hrun & Hpc & Hr & _).
  exists s'. repeat split; assumption.
Defined.

(** X12.  When the configuration cannot be written or the backend does
    not start, [connect] returns the wrapped error after removing the
    configuration file and clearing the running flag, without any call
    to the DNS controller. *)
Theorem connect_start_failure (s : System) (e : error) (r : option error) :
  pc s = NotConnecting ->
  (exists s',
     run [CallConnect; ConnectStep (Some e); ConnectStep r] s = Some s'
     /\ pc s' = NotConnecting
     /\ running s' = false
     /\ trace s' = trace s ++
          [GenerateAndSaveConfigFile (configFilePath (wg s));
           RemoveConfigFile (configFilePath (wg s));
           ConnectReturned (Some (Errorf "failed to save WG config file" e))])
  /\ (exists s',
     run [CallConnect; ConnectStep None; ConnectStep (Some e); ConnectStep r] s = Some s'
     /\ pc s' = NotConnecting
     /\ running s' = false
     /\ trace s' = trace s ++
          [GenerateAndSaveConfigFile (configFilePath (wg s));
           ExecUp (binaryPath (wg s)) (configFilePath (wg s));
           RemoveConfigFile (configFilePath (wg s));
           ConnectReturned (Some (Errorf "failed to start WireGuard" e))]).
Proof.
  destruct_system s. cbn. intros ->.
  split; (eexists; split; [reflexivity|]; cbn;
          repeat split; rewrite <- ?app_assoc; reflexivity).
Qed.

Lemma connect_start_failure_witness :
  exists s',
    run [CallConnect; ConnectStep (Some (External "permission denied"));
         ConnectStep None] start = Some s'
    /\ pc s' = NotConnecting
    /\ running s' = false.
Proof.
  destruct (connect_start_failure start (External "permission denied") None eq_refl)
    as [(s' & Hrun & Hpc & Hr & _) _].
  exists s'. repeat split; assumption.
Defined.

(** ** A pending disconnect signal *)

Lemma step_winding a s s' :
  isCallConnect a = false ->
  step a s = Some s' ->
  winding s ->
  winding s'
  /\ exists evs, trace s' = trace s ++ evs /\ existsb isExecUp evs = false.
Proof.
  unfold winding, mailbox. destruct_system s.
  intros Ha Hs Hw. cbn in Hw.
  destruct Hw as [[Hb ->]|[[e ->]| ->]];
    (destruct a; [discriminate Ha|..]); step_cases Hs; cbn in *;
    try discriminate;
    (split; [eauto|eexists; split; [try reflexivity|]]);
    try (rewrite app_nil_r; reflexivity); try reflexivity.
  match goal with
  | H : Some _ = Some _ |- _ => injection H as <- <-
  end.
  discriminate.
Qed.

Lemma run_winding actions s s' :
  forallb (fun a => negb (isCallConnect a)) actions = true ->
  run actions s = Some s' ->
  winding s ->
  winding s'
  /\ exists evs, trace s' = trace s ++ evs /\ existsb isExecUp evs = false.
Proof.
  revert s.
  induction actions as [|a rest IH]; intros s Hn Hrun Hw; cbn [run] in Hrun.
  - injection Hrun as <-. split; [assumption|].
    exists []. now rewrite app_nil_r.
  - cbn [forallb] in Hn. apply andb_true_iff in Hn as [Ha Hn].
    apply negb_true_iff in Ha.
    destruct (step a s) as [s1|] eqn:Hs; [|discriminate].
    destruct (step_winding a s s1 Ha Hs Hw) as (Hw1 & evs1 & Ht1 & He1).
    destruct (IH s1 Hn Hrun Hw1) as (Hw' & evs & Ht & He).
    split; [assumption|].
    exists (evs1 ++ evs). split.
    + now rewrite Ht, Ht1, app_assoc.
    + rewrite existsb_app, He1, He. reflexivity.
Qed.

(** X13.  Once the backend of the current iteration has been started,
    [disconnect] on an empty control channel leaves a disconnect signal
    in it, and from then on, whatever the other methods do and whether
    the tunnel was paused or not, [connect] does not start the backend
    again until the service calls [connect] anew. *)
Theorem disconnect_prevents_restart (s : System) (r : option error) :
  backendStarted (pc s) = true ->
  mailbox s = Some (make 1) ->
  exists s1,
    step (CallDisconnect r) s = Some s1
    /\ mailbox s1 = Some {| capacity := 1; buffer := [Op.disconnect] |}
    /\ forall actions s2,
         forallb (fun a => negb (isCallConnect a)) actions = true ->
         run actions s1 = Some s2 ->
         exists evs, trace s2 = trace s1 ++ evs /\ existsb isExecUp evs = false.
Proof.
  intros Hb Hm.
  assert (H1 : exists s1, step (CallDisconnect r) s = Some s1
                 /\ pc s1 = pc s
                 /\ mailbox s1 = Some {| capacity := 1; buffer := [Op.disconnect] |}).
  { unfold mailbox in *. destruct_system s. cbn in Hm. subst.
    cbn. unfold method, disconnect, resume, isPaused'. cbn.
    repeat match goal with
           | |- context [if ?b then _ else _] => destruct b; cbn
           end;
      eexists; repeat split. }
  destruct H1 as (s1 & Hs & Hpc & Hm1).
  exists s1. split; [assumption|]. split; [assumption|].
  intros actions s2 Hn Hrun.
  assert (Hw : winding s1) by (left; split; [now rewrite Hpc|assumption]).
  exact (proj2 (run_winding actions s1 s2 Hn Hrun Hw)).
Qed.

Lemma disconnect_prevents_restart_witness :
  exists s1,
    step (CallDisconnect None) (theSystem (run untilConnected start)) = Some s1
    /\ mailbox s1 = Some {| capacity := 1; buffer := [Op.disconnect] |}.
Proof.
  destruct (disconnect_prevents_restart (theSystem (run untilConnected start)) None
              eq_refl eq_refl) as (s1 & Hs & Hm & _).
  exists s1. split; assumption.
Defined.

(** ** The manual DNS address *)

Lemma connect_dns_calls_shared s s' r :
  step (ConnectStep r) s = Some s' ->
  pc s = AtSetDNS ->
  trace s' = trace s ++ [DnsSetManual (dnsIP (wg s)) None].
Proof.
  destruct_system s. intros Hs Hpc. cbn in Hpc. subst.
  cbn in Hs. destruct r; injection Hs as <-; reflexivity.
Qed.

Lemma step_keeps_manualDNS a s s' :
  isManualDNSCall a = false ->
  step a s = Some s' ->
  manualDNS (internals (wg s')) = manualDNS (internals (wg s))
  /\ connectParams (wg s') = connectParams (wg s).
Proof.
  destruct_system s. intros Ha Hs.
  destruct a; try discriminate Ha; step_cases Hs; cbn; split; reflexivity.
Qed.

Lemma run_keeps_manualDNS actions s s' :
  forallb (fun a => negb (isManualDNSCall a)) actions = true ->
  run actions s = Some s' ->
  manualDNS (internals (wg s')) = manualDNS (internals (wg s))
  /\ connectParams (wg s') = connectParams (wg s).
Proof.
  revert s.
  induction actions as [|a rest IH]; intros s Hn Hrun; cbn [run] in Hrun.
  - injection Hrun as <-. split; reflexivity.
  - cbn [forallb] in Hn. apply andb_true_iff in Hn as [Ha Hn].
    apply negb_true_iff in Ha.
    destruct (step a s) as [s1|] eqn:Hs; [|discriminate].
    destruct (step_keeps_manualDNS a s s1 Ha Hs) as [Hm Hp].
    destruct (IH s1 Hn Hrun) as [Hm' Hp'].
    split; congruence.
Qed.

(** X14.  [setManualDNS] on a tunnel that is paused or not running
    makes no call to the DNS controller; the address is kept through
    every later step that is not another change of the manual address,
    and the next iteration of [connect] applies it (or the gateway
    address of the tunnel, if the address given is nil). *)
Theorem setManualDNS_deferred (s : System) (addr : IP) (r : option error) :
  paused s = true \/ running s = false ->
  exists s1,
    step (CallSetManualDNS addr r) s = Some s1
    /\ trace s1 = trace s
    /\ forall actions s2 r' s3,
         forallb (fun a => negb (isManualDNSCall a)) actions = true ->
         run actions s1 = Some s2 ->
         pc s2 = AtSetDNS ->
         step (ConnectStep r') s2 = Some s3 ->
         trace s3 = trace s2 ++
           [DnsSetManual (if isNil addr then hostLocalIP (connectParams (wg s))
                          else addr) None].
Proof.
  intros Hp.
  assert (H1 : exists s1, step (CallSetManualDNS addr r) s = Some s1
                 /\ trace s1 = trace s
                 /\ manualDNS (internals (wg s1)) = addr
                 /\ connectParams (wg s1) = connectParams (wg s)).
  { unfold paused, running in Hp. destruct_system s. cbn in Hp.
    cbn. unfold method, setManualDNS, isPaused'. cbn.
    destruct Hp as [-> | ->]; cbn; rewrite ?orb_true_r; cbn;
      eexists; rewrite ?app_nil_r; repeat split. }
  destruct H1 as (s1 & Hs & Ht & Hm & Hc).
  exists s1. split; [assumption|]. split; [assumption|].
  intros actions s2 r' s3 Hn Hrun Hpc Hstep.
  destruct (run_keeps_manualDNS actions s1 s2 Hn Hrun) as [Hm2 Hc2].
  rewrite (connect_dns_calls_shared s2 s3 r' Hstep Hpc).
  unfold dnsIP. rewrite Hm2, Hc2, Hm, Hc.
  now destruct (isNil addr).
Qed.

Lemma setManualDNS_deferred_witness :
  exists s1,
    step (CallSetManualDNS (IPv4 9 9 9 9) None) (theSystem (run untilPaused start))
    = Some s1
    /\ trace s1 = trace (theSystem (run untilPaused start)).
Proof.
  destruct (setManualDNS_deferred (theSystem (run untilPaused start))
              (IPv4 9 9 9 9) None (or_introl eq_refl)) as (s1 & Hs & Ht & _).
  exists s1. split; assumption.
Defined.

(** ** A whole call of [connect] *)

(** X15.  Called while nothing is paused and left alone by the other
    methods, [connect] writes the configuration, starts the backend,
    applies the DNS, reports the connected state, waits, restores the
    DNS, removes the configuration file and returns no error, in this
    order, with the running flag cleared at the end. *)
Theorem connect_undisturbed (s : System) (r1 r2 r3 r4 : option error) :
  pc s = NotConnecting ->
  paused s = false ->
  exists s',
    run [CallConnect; ConnectStep None; ConnectStep None; ConnectStep None;
         ConnectStep r1; ConnectStep r2; ConnectStep r3; ConnectStep r4;
         ConnectStep None] s = Some s'
    /\ pc s' = NotConnecting
    /\ running s' = false
    /\ trace s' = trace s ++
         [GenerateAndSaveConfigFile (configFilePath (wg s));
          ExecUp (binaryPath (wg s)) (configFilePath (wg s));
          DnsSetManual (dnsIP (wg s)) None;
          StateConnected (clientLocalIP (connectParams (wg s)))
                         (hostIP (connectParams (wg s)));
          DnsDeleteManual None;
          RemoveConfigFile (configFilePath (wg s));
          ConnectReturned None].
Proof.
  unfold paused. destruct_system s. cbn. intros -> ->.
  eexists. split; [reflexivity|]. cbn.
  repeat split. rewrite ?app_nil_r, <- ?app_assoc. reflexivity.
Qed.

Lemma connect_undisturbed_witness :
  exists s',
    run [CallConnect; ConnectStep None; ConnectStep None; ConnectStep None;
         ConnectStep None; ConnectStep None; ConnectStep None; ConnectStep None;
         ConnectStep None] start = Some s'
    /\ pc s' = NotConnecting
    /\ running s' = false.
Proof.
  destruct (connect_undisturbed start None None None None eq_refl eq_refl)
    as (s' & Hrun & Hpc & Hr & _).
  exists s'. repeat split; assumption.
Defined.

(** X16.  Called while the paused flag is still set (left over from an
    earlier tunnel), [connect] does not return when its tunnel
    interface disappears: it restores the DNS and then blocks on the
    empty control channel it has just made, with the running flag set,
    until [resume] or [disconnect] sends a signal. *)
Theorem connect_with_stale_paused_flag (s : System) (r1 r2 r3 r4 : option error) :
  pc s = NotConnecting ->
  paused s = true ->
  exists s',
    run [CallConnect; ConnectStep None; ConnectStep None; ConnectStep None;
         ConnectStep r1; ConnectStep r2; ConnectStep r3; ConnectStep r4] s = Some s'
    /\ pc s' = AtReceive
    /\ running s' = true
    /\ mailbox s' = Some (make 1)
    /\ (forall r, step (ConnectStep r) s' = None)
    /\ trace s' = trace s ++
         [GenerateAndSaveConfigFile (configFilePath (wg s));
          ExecUp (binaryPath (wg s)) (configFilePath (wg s));
          DnsSetManual (dnsIP (wg s)) None;
          StateConnected (clientLocalIP (connectParams (wg s)))
                         (hostIP (connectParams (wg s)));
          DnsDeleteManual None].
Proof.
  unfold paused, running, mailbox. destruct_system s. cbn. intros -> ->.
  eexists. split; [reflexivity|]. cbn.
  repeat split. rewrite ?app_nil_r, <- ?app_assoc. reflexivity.
Qed.

Lemma connect_with_stale_paused_flag_witness :
  exists s',
    run [CallConnect; ConnectStep None; ConnectStep None; ConnectStep None;
         ConnectStep None; ConnectStep None; ConnectStep None; ConnectStep None]
      (theSystem (run disconnectThenPause start)) = Some s'
    /\ pc s' = AtReceive
    /\ (forall r, step (ConnectStep r) s' = None).
Proof.
  destruct (connect_with_stale_paused_flag (theSystem (run disconnectThenPause start))
              None None None None eq_refl eq_refl)
    as (s' & Hrun & Hpc & _ & _ & Hblocked & _).
  exists s'. repeat split; assumption.
Defined.

End WireGuardExtra.

(* ===================================================================== *)
(** * Properties of the notification of WiFi changes                      *)
(* ===================================================================== *)

Module WiFiExtra.
Import WiFi.

Section Notifier.
Variables WiFiSecurityNone WiFiSecurityWEP : WiFiSecurity.

Local Abbreviation step := (step WiFiSecurityNone WiFiSecurityWEP).
Local Abbreviation run := (run WiFiSecurityNone WiFiSecurityWEP).
Local Abbreviation reachable := (reachable WiFiSecurityNone WiFiSecurityWEP).
Local Abbreviation delayedNotify := (delayedNotify WiFiSecurityNone WiFiSecurityWEP).
Local Abbreviation isInsecureWiFi := (isInsecureWiFi WiFiSecurityNone WiFiSecurityWEP).
Local Abbreviation settling := (settling WiFiSecurityNone WiFiSecurityWEP).

(** ** Timers *)

Lemma nth_error_updateTimer f t l t' :
  nth_error (updateTimer f t l) t'
  = if Nat.eqb t' t
    then option_map (fun x => {| captured := captured x; status := f (status x) |})
           (nth_error l t')
    else nth_error l t'.
Proof.
  revert t t'. induction l as [|x l IH]; intros t t'.
  - assert (Hnil : nth_error (@nil Timer) t' = None) by now destruct t'.
    destruct t; cbn [updateTimer]; rewrite Hnil; cbn;
      now destruct (Nat.eqb t' _).
  - destruct t as [|t]; destruct t' as [|t']; cbn; try reflexivity. apply IH.
Qed.

Lemma length_updateTimer f t l : length (updateTimer f t l) = length l.
Proof.
  revert t. induction l as [|x l IH]; intros t; destruct t; cbn; auto.
Qed.

Lemma wifi_run_app a b s :
  run (a ++ b) s = match run a s with
                   | Some s' => run b s'
                   | None => None
                   end.
Proof.
  revert s. induction a as [|x a IH]; intros s; cbn; [reflexivity|].
  destruct (step x s); [apply IH|reflexivity].
Qed.

Lemma wifi_run_invariant (P : Service -> Prop) (ok : Action -> bool) :
  (forall a s s', ok a = true -> step a s = Some s' -> P s -> P s') ->
  forall actions s s',
    forallb ok actions = true -> P s -> run actions s = Some s' -> P s'.
Proof.
  intros Hstep actions.
  induction actions as [|a rest IH]; intros s s' Hok HP Hrun; cbn in Hrun.
  - now injection Hrun as <-.
  - cbn in Hok. apply andb_true_iff in Hok as [Ha Hok].
    destruct (step a s) as [s1|] eqn:Hs; [|discriminate].
    eapply IH; [exact Hok| |exact Hrun]. eapply Hstep; eassumption.
Qed.

Lemma delayedNotify_fields inf s :
  lastWiFiInfo (delayedNotify inf s) = lastWiFiInfo s
  /\ timerDelayedNotify (delayedNotify inf s) = timerDelayedNotify s
  /\ timers (delayedNotify inf s) = timers s.
Proof.
  unfold WiFi.delayedNotify. destruct (lastWiFiInfo s) as [last|] eqn:Hl.
  - destruct (negb _ || negb _); cbn; auto.
  - auto.
Qed.

(** What a step that is not a change is. *)
Lemma step_not_change a s s' :
  isChange a = false ->
  step a s = Some s' ->
  exists t x,
    nth_error (timers s) t = Some x
    /\ ((a = Expire t /\ status x = Pending
         /\ s' = withTimers (updateTimer (fun _ => Started) t (timers s)) s)
        \/ (a = RunCallback t /\ status x = Started
            /\ s' = delayedNotify (captured x)
                      (withTimers (updateTimer (fun _ => Finished) t (timers s)) s))).
Proof.
  intros Ha Hs.
  destruct a as [name sec|t|t]; [discriminate Ha|..]; cbn [WiFi.step] in Hs;
    destruct (nth_error (timers s) t) as [[inf st]|] eqn:Hn; try discriminate;
    destruct st; try discriminate; injection Hs as <-;
    exists t; eexists;
    (split; [exact Hn|]); [left|right]; repeat split.
Qed.

(** ** Only the latest change is pending *)

Lemma Stop_not_pending t0 l t tm :
  nth_error (Stop t0 l) t = Some tm ->
  status tm = Pending ->
  t <> t0 /\ nth_error l t = Some tm.
Proof.
  unfold Stop. rewrite nth_error_updateTimer.
  destruct (Nat.eqb_spec t t0) as [->|Hne].
  - destruct (nth_error l t0) as [x|]; cbn; [|discriminate].
    intros H Hp. injection H as <-. cbn in Hp. now destruct (status x).
  - auto.
Qed.

Lemma step_onePending a s s' :
  step a s = Some s' -> onePending s -> onePending s'.
Proof.
  intros Hs Hinv.
  destruct (isChange a) eqn:Ha.
  - destruct a as [name sec| |]; try discriminate Ha.
    injection Hs as <-. intros t tm Hn Hp. cbn in *.
    set (stopped := match timerDelayedNotify s with
                    | Some t0 => Stop t0 (timers s)
                    | None => timers s
                    end) in *.
    destruct (Nat.lt_ge_cases t (length stopped)) as [Hlt|Hge].
    + exfalso. rewrite nth_error_app1 in Hn by assumption. subst stopped.
      destruct (timerDelayedNotify s) as [t0|] eqn:Ht0.
      * destruct (Stop_not_pending _ _ _ _ Hn Hp) as [Hne Hn'].
        destruct (Hinv t tm Hn' Hp) as [Hd _]. congruence.
      * destruct (Hinv t tm Hn Hp) as [Hd _]. congruence.
    + rewrite nth_error_app2 in Hn by assumption.
      destruct (t - length stopped)%nat as [|k] eqn:Hk.
      * cbn in Hn. injection Hn as <-. cbn. split; [f_equal; lia|reflexivity].
      * cbn in Hn. now destruct k.
  - destruct (step_not_change a s s' Ha Hs)
      as (t0 & x & Hx & [(-> & Hst & ->)|(-> & Hst & ->)]);
      intros t tm Hn Hp;
      [|destruct (delayedNotify_fields (captured x)
                   (withTimers (updateTimer (fun _ => Finished) t0 (timers s)) s))
          as (Hl & Hd & Ht); rewrite Hl, Hd; rewrite Ht in Hn];
      cbn in *; rewrite nth_error_updateTimer in Hn;
      (destruct (Nat.eqb t t0);
       [destruct (nth_error (timers s) t) as [y|]; cbn in Hn; [|discriminate];
        injection Hn as <-; discriminate Hp
       |exact (Hinv t tm Hn Hp)]).
Qed.

(** X17.  In every reachable state, a timer still waiting for its
    delay is the one [timerDelayedNotify] names and has captured the
    network of the latest change: every earlier pending timer has been
    stopped. *)
Theorem only_latest_change_pending (s : Service) (t : nat) (tm : Timer) :
  reachable s ->
  nth_error (timers s) t = Some tm ->
  status tm = Pending ->
  timerDelayedNotify s = Some t /\ lastWiFiInfo s = Some (captured tm).
Proof.
  intros (actions & Hrun).
  assert (H : onePending s).
  { apply (wifi_run_invariant onePending (fun _ => true)
             (fun a s0 s1 _ => step_onePending a s0 s1) actions WiFi.initial s).
    - apply forallb_forall. intros; reflexivity.
    - intros t0 tm0 Hn. now destruct t0.
    - exact Hrun. }
  apply H.
Qed.

(** ** Notifications are never stale *)

Lemma delayedNotify_latest inf s last :
  lastWiFiInfo s = Some last ->
  (delayedNotify inf s = s /\ inf <> last)
  \/ (inf = last
      /\ delayedNotify inf s
         = {| lastWiFiInfo := lastWiFiInfo s;
              timerDelayedNotify := timerDelayedNotify s;
              timers := timers s;
              notified := notified s ++ [(ssid last, isInsecureWiFi (security last))] |}).
Proof.
  intros Hl. unfold WiFi.delayedNotify. rewrite Hl.
  destruct inf as [n1 s1], last as [n2 s2]. cbn.
  destruct (String.eqb_spec n2 n1) as [->|Hn]; cbn.
  - destruct (Z.eqb_spec s2 s1) as [->|Hs]; cbn.
    + right. split; reflexivity.
    + left. split; [reflexivity|congruence].
  - left. split; [reflexivity|congruence].
Qed.

Lemma step_reports_latest a s s' last :
  isChange a = false ->
  step a s = Some s' ->
  lastWiFiInfo s = Some last ->
  lastWiFiInfo s' = Some last
  /\ (notified s' = notified s
      \/ notified s' = notified s ++ [(ssid last, isInsecureWiFi (security last))]).
Proof.
  intros Ha Hs Hl.
  destruct (step_not_change a s s' Ha Hs)
    as (t0 & x & Hx & [(-> & Hst & ->)|(-> & Hst & ->)]).
  - cbn. auto.
  - set (s1 := withTimers (updateTimer (fun _ => Finished) t0 (timers s)) s).
    destruct (delayedNotify_latest (captured x) s1 last Hl) as [[-> _]|[_ ->]];
      cbn; auto.
Qed.


(** ** A burst of changes *)

Lemma step_change_armedOnly name sec s :
  armedOnly s -> armedOnly (onWiFiChanged name sec s).
Proof.
  intros [Hnot Hact]. split; [exact Hnot|].
  intros t tm Hn Ha. cbn in *.
  set (stopped := match timerDelayedNotify s with
                  | Some t0 => Stop t0 (timers s)
                  | None => timers s
                  end) in *.
  destruct (Nat.lt_ge_cases t (length stopped)) as [Hlt|Hge].
  - exfalso. rewrite nth_error_app1 in Hn by assumption. subst stopped.
    destruct (timerDelayedNotify s) as [t0|] eqn:Ht0.
    + unfold Stop in Hn. rewrite nth_error_updateTimer in Hn.
      destruct (Nat.eqb_spec t t0) as [->|Hne].
      * destruct (nth_error (timers s) t0) as [x|] eqn:Hx; cbn in Hn;
          [|discriminate].
        injection Hn as <-. cbn in Ha.
        destruct (status x) eqn:Hst; try discriminate.
        destruct (Hact t0 x Hx) as [Hp _]; [now rewrite Hst|]. congruence.
      * destruct (Hact t tm Hn Ha) as (_ & Hd & _). congruence.
    + destruct (Hact t tm Hn Ha) as (_ & Hd & _). congruence.
  - rewrite nth_error_app2 in Hn by assumption.
    destruct (t - length stopped)%nat as [|k] eqn:Hk.
    + cbn in Hn. injection Hn as <-. cbn.
      repeat split. f_equal. lia.
    + cbn in Hn. now destruct k.
Qed.

Lemma armedOnly_settling s last :
  armedOnly s -> lastWiFiInfo s = Some last -> settling last s.
Proof.
  intros [Hnot Hact] Hl. split; [assumption|]. split; [now left|].
  intros t tm Hn Ha. destruct (Hact t tm Hn Ha) as (_ & Hd & Hc).
  split; [congruence|]. split; [assumption|].
  intros t' tm' Hn' Ha'. destruct (Hact t' tm' Hn' Ha') as (_ & Hd' & _).
  congruence.
Qed.

Lemma step_settling a s s' last :
  isChange a = false ->
  step a s = Some s' ->
  settling last s -> settling last s'.
Proof.
  intros Ha Hs (Hl & Hnot & Hact).
  destruct (step_not_change a s s' Ha Hs)
    as (t0 & x & Hx & [(-> & Hst & ->)|(-> & Hst & ->)]).
  - destruct (Hact t0 x Hx) as (Hc & Hn0 & Huniq); [now rewrite Hst|].
    split; [exact Hl|]. split; [left; exact Hn0|].
    intros t tm Hn Hat. cbn in Hn. rewrite nth_error_updateTimer in Hn.
    assert (Ht : t = t0).
    { destruct (Nat.eqb_spec t t0) as [->|Hne]; [reflexivity|].
      exact (Huniq t tm Hn Hat). }
    subst t. rewrite Nat.eqb_refl, Hx in Hn. cbn in Hn. injection Hn as <-.
    cbn. split; [assumption|]. split; [assumption|].
    intros t' tm' Hn' Hat'. cbn in Hn'. rewrite nth_error_updateTimer in Hn'.
    destruct (Nat.eqb_spec t' t0) as [->|Hne]; [reflexivity|].
    exact (Huniq t' tm' Hn' Hat').
  - destruct (Hact t0 x Hx) as (Hc & Hn0 & Huniq); [now rewrite Hst|].
    set (s1 := withTimers (updateTimer (fun _ => Finished) t0 (timers s)) s).
    assert (Hidle : forall t tm, nth_error (timers s1) t = Some tm ->
                                 active (status tm) = false).
    { intros t tm Hn. cbn in Hn. rewrite nth_error_updateTimer in Hn.
      destruct (Nat.eqb_spec t t0) as [->|Hne].
      - rewrite Hx in Hn. cbn in Hn. now injection Hn as <-.
      - destruct (active (status tm)) eqn:Hat; [|reflexivity].
        elim Hne. exact (Huniq t tm Hn Hat). }
    destruct (delayedNotify_fields (captured x) s1) as (Hl1 & Hd1 & Ht1).
    split; [rewrite Hl1; exact Hl|].
    split.
    + right. split.
      * destruct (delayedNotify_latest (captured x) s1 last Hl) as [[_ Hne]|[_ ->]];
          [congruence|]. cbn. now rewrite Hn0.
      * intros t tm Hn. rewrite Ht1 in Hn. exact (Hidle t tm Hn).
    + intros t tm Hn Hat. rewrite Ht1 in Hn.
      rewrite (Hidle t tm Hn) in Hat. discriminate.
Qed.


End Notifier.

Lemma only_latest_change_pending_witness :
  timerDelayedNotify
    (onWiFiChanged "office" 3 (onWiFiChanged "cafe" 0 WiFi.initial)) = Some 1%nat.
Proof.
  refine (proj1 (only_latest_change_pending 0 1
                   (onWiFiChanged "office" 3 (onWiFiChanged "cafe" 0 WiFi.initial))
                   1 {| captured := {| ssid := "office"; security := 3 |};
                        status := Pending |} _ eq_refl eq_refl)).
  exists [WiFiChanged "cafe" 0; WiFiChanged "office" 3]. reflexivity.
Defined.



End WiFiExtra.
